(** * NCCL/01/test.cc: a monitored NCCL communicator

    A shallow embedding of the NCCL smoke test: the three check macros, the
    [NCCLComm] wrapper with its watchdog method [CheckNCCLError], the host
    name helpers [getHostName] and [getHostHash], the SIGTERM [handler] and
    [main] with its two endless loops.

    Calls into MPI, CUDA, NCCL and libc are external: every such call is
    recorded in the trace of the process ([calls]) and the value it returns
    is an input of the model, so that a theorem quantified over these inputs
    speaks about every behaviour of the transport. *)

From Stdlib Require Import ZArith String Ascii DecimalString.
From stdpp Require Import base list strings.

Local Open Scope Z_scope.

(** ** C data *)

(** [ncclResult_t], [cudaError_t] and the MPI error codes are C integers; the
    program only compares them with the success value, which is 0 in the
    three libraries. *)
Definition ncclResult_t := Z.
Definition cudaError_t := Z.
Definition ncclSuccess : ncclResult_t := 0.
Definition cudaSuccess : cudaError_t := 0.
Definition MPI_SUCCESS : Z := 0.

(** [stdlib.h] and [signal.h] (Linux). *)
Definition EXIT_FAILURE : Z := 1.
Definition SIGTERM : Z := 15.

(** [ncclComm_t] is an opaque pointer. *)
Definition ncclComm_t := Z.

(** A [char] is kept as the integer it holds; a C string is a list of them
    read up to the first 0. *)
Definition NUL : Z := 0.
Definition DOT : Z := 46.

(** [uint64_t] arithmetic wraps modulo 2^64. *)
Definition wrap64 (z : Z) : Z := z mod 2 ^ 64.

(** ** printf *)

Definition nl : string := String "010"%char EmptyString.

(** [%d] *)
Definition dec (z : Z) : string := NilZero.string_of_int (Z.to_int z).

(** [%2.f] applied to a whole number of milliseconds: no fraction digits,
    padded on the left to two characters. *)
Definition fmt_2f (ms : Z) : string :=
  let s := dec ms in
  if (String.length s <? 2)%nat then " " +:+ s else s.

(** [sub] occurs in [s]. *)
Definition contains (sub s : string) : Prop :=
  exists a b : string, s = a +:+ sub +:+ b.

(** ** The process *)

(** External calls, as they appear in the trace. *)
Inductive call : Type :=
| Call_signal (signum : Z)
| Call_MPI_Init
| Call_MPI_Comm_rank
| Call_MPI_Comm_size
| Call_gethostname (maxlen : Z)
| Call_MPI_Allgather
| Call_ncclGetUniqueId
| Call_MPI_Bcast
| Call_MPI_Finalize
| Call_cudaSetDevice (device : Z)
| Call_cudaMalloc (bytes : Z)
| Call_cudaStreamCreate
| Call_ncclCommInitRank (nranks rank : Z)
| Call_thread_start
| Call_ncclAllReduce (comm : ncclComm_t) (count : Z)
| Call_sleep_for (ms : Z)
| Call_ncclCommGetAsyncError (comm : ncclComm_t)
| Call_ncclCommAbort (comm : ncclComm_t)
| Call_cudaFree
| Call_thread_join.

(** What [signal] has installed for SIGTERM. *)
Inductive disposition : Type := SIG_DFL | SIG_handler.

(** The observable state of the process: what it printed (one entry for each
    [printf]), the external calls it made, and the SIGTERM disposition. *)
Record world : Type := World {
  out : list string;
  calls : list call;
  sigterm : disposition
}.

Definition print (s : string) (w : world) : world :=
  World (out w ++ [s]) (calls w) (sigterm w).

Definition record (c : call) (w : world) : world :=
  World (out w) (calls w ++ [c]) (sigterm w).

(** A computation either goes on with a value, leaves the process through
    [exit], or runs into undefined behaviour (an access outside an array);
    each case keeps the state of the process at that point. *)
Inductive result (A : Type) : Type :=
| Ret (a : A) (w : world)
| Exit (code : Z) (w : world)
| Undefined (w : world).
Arguments Ret {A} a w.
Arguments Exit {A} code w.
Arguments Undefined {A} w.

Definition M (A : Type) : Type := world -> result A.

Definition ret {A} (a : A) : M A := fun w => Ret a w.

Definition bind {A B} (m : M A) (k : A -> M B) : M B :=
  fun w =>
    match m w with
    | Ret a w' => k a w'
    | Exit code w' => Exit code w'
    | Undefined w' => Undefined w'
    end.

Notation "'do' x <- m ;; k" := (bind m (fun x => k))
  (at level 10, x name, m at level 99, k at level 200).

Definition printf (s : string) : M unit := fun w => Ret tt (print s w).
Definition exit {A} (code : Z) : M A := fun w => Exit code w.
Definition undefined {A} : M A := fun w => Undefined w.

(** An external call that returns [r]. *)
Definition extern {A} (c : call) (r : A) : M A := fun w => Ret r (record c w).

Definition of_option {A} (o : option A) : M A :=
  match o with
  | Some a => ret a
  | None => undefined
  end.

(** ** The check macros and the wrapper class *)

Section Program.

(** [__FILE__] and the two error-string functions of the libraries. *)
Variable FILE : string.
Variable ncclGetErrorString : ncclResult_t -> string.
Variable cudaGetErrorString : cudaError_t -> string.

(** The format strings of the three macros, filled in. *)
Definition MPI_failed (line e : Z) : string :=
  "Failed: MPI error " +:+ FILE +:+ ":" +:+ dec line +:+ " '" +:+ dec e
  +:+ "'" +:+ nl.

Definition Cuda_failed (line : Z) (e : cudaError_t) : string :=
  "Failed: Cuda error " +:+ FILE +:+ ":" +:+ dec line +:+ " '"
  +:+ cudaGetErrorString e +:+ "'" +:+ nl.

Definition NCCL_failed (line : Z) (r : ncclResult_t) : string :=
  "Failed, NCCL error " +:+ FILE +:+ ":" +:+ dec line +:+ " '"
  +:+ ncclGetErrorString r +:+ "'" +:+ nl.

(** The three macros take the line of their use, [__LINE__], and the
    command they wrap. *)
Definition MPICHECK (line : Z) (cmd : M Z) : M unit :=
  do e <- cmd ;;
  if negb (e =? MPI_SUCCESS) then
    do _ <- printf (MPI_failed line e) ;;
    exit EXIT_FAILURE
  else ret tt.

Definition CUDACHECK (line : Z) (cmd : M cudaError_t) : M unit :=
  do e <- cmd ;;
  if negb (e =? cudaSuccess) then
    do _ <- printf (Cuda_failed line e) ;;
    exit EXIT_FAILURE
  else ret tt.

Definition NCCLCHECK (line : Z) (cmd : M ncclResult_t) : M unit :=
  do r <- cmd ;;
  if negb (r =? ncclSuccess) then
    do _ <- printf (NCCL_failed line r) ;;
    exit EXIT_FAILURE
  else ret tt.

(** The class has one data member besides its mutex. Each method holds the
    mutex from entry to return, so a method call is one atomic step. *)
Record NCCLComm : Type := { nccl_comm_ : ncclComm_t }.

Definition GetNCCLComm (self : NCCLComm) : M ncclComm_t :=
  ret (nccl_comm_ self).

(** What the transport answers during one [CheckNCCLError]: the return code
    of [ncclCommGetAsyncError], the code it stores in [result], the return
    code of [ncclCommAbort] and the milliseconds the abort took (the last
    two are used only when the abort is called). *)
Record health : Type := Health {
  query_ret : ncclResult_t;
  async_result : ncclResult_t;
  abort_ret : ncclResult_t;
  abort_ms : Z
}.

(** The three lines the method logs around an abort. *)
Definition async_error_line (result : ncclResult_t) : string :=
  "ncclCommGetAsyncError result: " +:+ ncclGetErrorString result +:+ nl.

Definition abort_starts : string := "[DEBUG] ncclComAbort starts!" +:+ nl.

Definition abort_finishes (time_elapsed : Z) : string :=
  "[DEBUG] ncclComAbort finishes! Time elapsed = " +:+ fmt_2f time_elapsed
  +:+ " ms." +:+ nl.

(** The method returns the object as it leaves it. *)
Definition CheckNCCLError (t : health) (self : NCCLComm) : M NCCLComm :=
  do _ <- NCCLCHECK 66
    (extern (Call_ncclCommGetAsyncError (nccl_comm_ self)) (query_ret t)) ;;
  let result := async_result t in
  if negb (result =? ncclSuccess) then
    do _ <- printf (async_error_line result) ;;
    do _ <- printf abort_starts ;;
    do _ <- NCCLCHECK 71 (extern (Call_ncclCommAbort (nccl_comm_ self)) (abort_ret t)) ;;
    let time_elapsed := abort_ms t in
    do _ <- printf (abort_finishes time_elapsed) ;;
    ret self
  else ret self.

(** ** Host name and host hash *)

(** Array access at a C [int] index. *)
Definition at_index {A} (l : list A) (i : Z) : option A :=
  if i <? 0 then None else l !! Z.to_nat i.

(** [getHostHash]: [c] runs over the string until the first 0; reading past
    the end of the array is undefined. *)
Fixpoint getHostHash_from (string : list Z) (result : Z) : option Z :=
  match string with
  | [] => None
  | ch :: rest =>
      if ch =? NUL then Some result
      else getHostHash_from rest
             (Z.lxor (wrap64 (wrap64 (Z.shiftl result 5) + result)) (wrap64 ch))
  end.

Definition getHostHash (string : list Z) : option Z :=
  getHostHash_from string 5381.

(** The loop of [getHostName]: [left] iterations remain before [i] reaches
    [maxlen]. *)
Fixpoint getHostName_scan (hostname : list Z) (i left : nat) : option (list Z) :=
  match left with
  | O => Some hostname
  | S left' =>
      match hostname !! i with
      | None => None
      | Some ch =>
          if ch =? DOT then Some (<[i:=NUL]> hostname)
          else getHostName_scan hostname (S i) left'
      end
  end.

(** [gethostname] is libc's: it turns the buffer it is given into the buffer
    it leaves. Its return value is ignored by the program. *)
Definition getHostName (gethostname : list Z -> Z -> list Z)
    (hostname : list Z) (maxlen : Z) : M (list Z) :=
  do hostname <- extern (Call_gethostname maxlen) (gethostname hostname maxlen) ;;
  of_option (getHostName_scan hostname 0 (Z.to_nat maxlen)).

(** ** Signal handler *)

(** What the handler prints; the format has no newline. *)
Definition receive_signal (signum : Z) : string :=
  "receive signal " +:+ dec signum +:+ ". exit.".

Definition handler (signum : Z) : M unit :=
  do _ <- printf (receive_signal signum) ;;
  exit 0.

(** ** main *)

(** What the environment hands to [main] outside its loop: the return codes
    and results of MPI, CUDA and NCCL, the contents of the two local arrays
    before they are written, and libc's [gethostname]. *)
Record boot : Type := Boot {
  MPI_Init_ret : Z;
  MPI_Comm_rank_ret : Z;
  myRank_out : Z;
  MPI_Comm_size_ret : Z;
  nRanks_out : Z;
  hostHashs_junk : nat -> Z;
  hostname_junk : nat -> Z;
  gethostname : list Z -> Z -> list Z;
  MPI_Allgather : list Z -> Z * list Z;
  MPI_Bcast_ret : Z;
  MPI_Finalize_ret : Z;
  cudaSetDevice_ret : cudaError_t;
  cudaMalloc_sendbuff_ret : cudaError_t;
  cudaMalloc_recvbuff_ret : cudaError_t;
  cudaStreamCreate_ret : cudaError_t;
  ncclCommInitRank_ret : ncclResult_t;
  comm_out : ncclComm_t;
  cudaFree_sendbuff_ret : cudaError_t;
  cudaFree_recvbuff_ret : cudaError_t
}.

(** A local array of [n] elements that has not been written yet. *)
Definition uninitialized (junk : nat -> Z) (n : Z) : list Z :=
  map junk (seq 0 (Z.to_nat n)).

(** [signal(SIGTERM, handler)] *)
Definition signal_SIGTERM_handler : M unit :=
  fun w => Ret tt (World (out w) (calls w ++ [Call_signal SIGTERM]) SIG_handler).

(** [hostHashs[myRank] = v] *)
Definition store (a : list Z) (i v : Z) : M (list Z) :=
  match at_index a i with
  | Some _ => ret (<[Z.to_nat i:=v]> a)
  | None => undefined
  end.

(** The loop that counts the ranks before [myRank] on the same host; [p]
    is the loop counter and [left] the iterations before it reaches
    [nRanks]. *)
Fixpoint localRank_loop (hostHashs : list Z) (myRank : Z) (p : Z) (left : nat)
    (localRank : Z) : option Z :=
  match left with
  | O => Some localRank
  | S left' =>
      if p =? myRank then Some localRank
      else
        match at_index hostHashs p, at_index hostHashs myRank with
        | Some a, Some b =>
            localRank_loop hostHashs myRank (p + 1) left'
              (if a =? b then localRank + 1 else localRank)
        | _, _ => None
        end
  end.

Definition size : Z := 32 * 1024 * 1024.
Definition sizeof_float : Z := 4.

(** Lines 125 to 168: everything up to the start of the watchdog thread.
    The result is the rank and the wrapped communicator. *)
Definition main_boot (e : boot) : M (Z * NCCLComm) :=
  let localRank := 0 in
  do _ <- signal_SIGTERM_handler ;;
  do _ <- MPICHECK 128 (extern Call_MPI_Init (MPI_Init_ret e)) ;;
  do _ <- MPICHECK 129 (extern Call_MPI_Comm_rank (MPI_Comm_rank_ret e)) ;;
  let myRank := myRank_out e in
  do _ <- MPICHECK 130 (extern Call_MPI_Comm_size (MPI_Comm_size_ret e)) ;;
  let nRanks := nRanks_out e in
  let hostHashs := uninitialized (hostHashs_junk e) nRanks in
  let hostname := uninitialized (hostname_junk e) 1024 in
  do hostname <- getHostName (gethostname e) hostname 1024 ;;
  do h <- of_option (getHostHash hostname) ;;
  do hostHashs <- store hostHashs myRank h ;;
  let gathered := MPI_Allgather e hostHashs in
  do _ <- MPICHECK 137 (extern Call_MPI_Allgather (fst gathered)) ;;
  let hostHashs := snd gathered in
  do localRank <- of_option
       (localRank_loop hostHashs myRank 0 (Z.to_nat nRanks) localRank) ;;
  do _ <- (if myRank =? 0 then extern Call_ncclGetUniqueId tt else ret tt) ;;
  do _ <- MPICHECK 153 (extern Call_MPI_Bcast (MPI_Bcast_ret e)) ;;
  do _ <- MPICHECK 156 (extern Call_MPI_Finalize (MPI_Finalize_ret e)) ;;
  do _ <- CUDACHECK 159 (extern (Call_cudaSetDevice localRank) (cudaSetDevice_ret e)) ;;
  do _ <- CUDACHECK 160
       (extern (Call_cudaMalloc (size * sizeof_float)) (cudaMalloc_sendbuff_ret e)) ;;
  do _ <- CUDACHECK 161
       (extern (Call_cudaMalloc (size * sizeof_float)) (cudaMalloc_recvbuff_ret e)) ;;
  do _ <- CUDACHECK 162 (extern Call_cudaStreamCreate (cudaStreamCreate_ret e)) ;;
  do _ <- NCCLCHECK 165
       (extern (Call_ncclCommInitRank nRanks myRank) (ncclCommInitRank_ret e)) ;;
  let nccl_comm := {| nccl_comm_ := comm_out e |} in
  do _ <- extern Call_thread_start tt ;;
  ret (myRank, nccl_comm).

(** *** The two loops *)

(** How far a loop got: its condition was found false and control went to
    the statement after it, or it is still iterating when the observation
    ends. *)
Inductive progress (S : Type) : Type :=
| Done (s : S)
| Spinning (s : S).
Arguments Done {S} s.
Arguments Spinning {S} s.

(** [while (cond) body], observed for [fuel] iterations; [i] numbers the
    iteration, so that the body can take the answer of the environment for
    that iteration. *)
Fixpoint while {S} (cond : S -> bool) (body : nat -> S -> M S)
    (fuel i : nat) (s : S) : M (progress S) :=
  if cond s then
    match fuel with
    | O => ret (Spinning s)
    | Datatypes.S fuel' =>
        do s' <- body i s ;;
        while cond body fuel' (Datatypes.S i) s'
    end
  else ret (Done s).

(** One turn of the foreground loop of [main], where [ncclAllReduce]
    returns [r]. *)
Definition allreduce_once (r : ncclResult_t) (nccl_comm : NCCLComm) : M NCCLComm :=
  do _ <- NCCLCHECK 172
       (do comm <- GetNCCLComm nccl_comm ;;
        extern (Call_ncclAllReduce comm size) r) ;;
  do _ <- extern (Call_sleep_for 50) tt ;;
  ret nccl_comm.

(** One turn of the loop of [checkNCCLError]. *)
Definition check_once (t : health) (comm : NCCLComm) : M NCCLComm :=
  do comm <- CheckNCCLError t comm ;;
  do _ <- extern (Call_sleep_for 10) tt ;;
  ret comm.

(** [checkNCCLError]: the thread function; it has no statement after its
    loop. *)
Definition checkNCCLError (transport : nat -> health) (fuel : nat)
    (comm : NCCLComm) : M (progress NCCLComm) :=
  while (fun _ => true) (fun i => check_once (transport i)) fuel 0%nat comm.

(** Line 171 to the end of [main]. The value is what [main] returns, if it
    returns. *)
Definition main_loop (e : boot) (allreduce : nat -> ncclResult_t) (fuel : nat)
    (myRank : Z) (nccl_comm : NCCLComm) : M (option Z) :=
  do l <- while (fun _ => true) (fun i => allreduce_once (allreduce i))
            fuel 0%nat nccl_comm ;;
  match l with
  | Spinning _ => ret None
  | Done _ =>
      do _ <- CUDACHECK 178 (extern Call_cudaFree (cudaFree_sendbuff_ret e)) ;;
      do _ <- CUDACHECK 179 (extern Call_cudaFree (cudaFree_recvbuff_ret e)) ;;
      do _ <- extern Call_thread_join tt ;;
      do _ <- printf ("[Rank " +:+ dec myRank +:+ "] Success " +:+ nl) ;;
      ret (Some 0)
  end.

Definition main (e : boot) (allreduce : nat -> ncclResult_t) (fuel : nat)
    : M (option Z) :=
  do b <- main_boot e ;;
  main_loop e allreduce fuel (fst b) (snd b).

(** ** The running process: two threads and signals *)

(** From line 168 on, what happens to the process is a sequence of events:
    the foreground thread does one turn of its loop, the watchdog does one
    turn of its loop, or SIGTERM arrives. [ncclAllReduce] runs outside the
    mutex of the handle; taking a whole turn as one step fixes where its
    call stands in the trace, but not what it or any other call returns. *)
Inductive event : Type :=
| Ev_allreduce (r : ncclResult_t)
| Ev_check (t : health)
| Ev_sigterm.

Inductive process : Type :=
| Alive (nccl_comm : NCCLComm) (w : world)
| Exited (code : Z) (w : world)
| Killed (signum : Z) (w : world)
| Crashed (w : world).

Definition settle (r : result NCCLComm) : process :=
  match r with
  | Ret c w => Alive c w
  | Exit code w => Exited code w
  | Undefined w => Crashed w
  end.

(** Delivery of a signal: the handler runs if it is installed, and the
    interrupted code would resume if the handler returned; otherwise the
    default action of SIGTERM ends the process. *)
Definition deliver (signum : Z) (resume : world -> process) (w : world) : process :=
  match sigterm w with
  | SIG_handler =>
      match handler signum w with
      | Ret _ w' => resume w'
      | Exit code w' => Exited code w'
      | Undefined w' => Crashed w'
      end
  | SIG_DFL => Killed signum w
  end.

Definition step (p : process) (ev : event) : process :=
  match p with
  | Alive c w =>
      match ev with
      | Ev_allreduce r => settle (allreduce_once r c w)
      | Ev_check t => settle (check_once t c w)
      | Ev_sigterm => deliver SIGTERM (Alive c) w
      end
  | _ => p
  end.

Definition run (p : process) (evs : list event) : process :=
  fold_left step evs p.

(** The process as [main] hands it over to its loop at line 168. *)
Definition booted (r : result (Z * NCCLComm)) : process :=
  match r with
  | Ret b w => Alive (snd b) w
  | Exit code w => Exited code w
  | Undefined w => Crashed w
  end.

(** *** Observations *)

Definition world_of (p : process) : world :=
  match p with
  | Alive _ w | Exited _ w | Killed _ w | Crashed w => w
  end.

Definition state_of {A} (r : result A) : world :=
  match r with
  | Ret _ w | Exit _ w | Undefined w => w
  end.

Definition is_abort (c : call) : bool :=
  match c with
  | Call_ncclCommAbort _ => true
  | _ => false
  end.

(** How often [ncclCommAbort] has been called. *)
Definition aborts (w : world) : nat := length (List.filter is_abort (calls w)).

(** The class keeps no record of a fault. The fault state the specification
    speaks of is read off the trace: the communicator is aborted once
    [ncclCommAbort] has been called on it. *)
Inductive FaultState : Type := Healthy | Aborted.

Definition fault_state (w : world) : FaultState :=
  if (aborts w =? 0)%nat then Healthy else Aborted.

(** The check found an error code to act on: the query itself succeeded
    and stored a code other than [ncclSuccess]. *)
Definition observes_fault (t : health) : Prop :=
  query_ret t = ncclSuccess /\ async_result t <> ncclSuccess.

(** One of the two NCCL calls of the check itself reports a failure: the
    query, or the abort that follows an observed fault. *)
Definition check_call_fails (t : health) : Prop :=
  query_ret t <> ncclSuccess \/ (observes_fault t /\ abort_ret t <> ncclSuccess).

Definition is_allreduce (c : call) : bool :=
  match c with
  | Call_ncclAllReduce _ _ => true
  | _ => false
  end.

(** The calls one turn of the watchdog makes when it finds nothing. *)
Definition quiet_turn (self : NCCLComm) : list call :=
  [Call_ncclCommGetAsyncError (nccl_comm_ self); Call_sleep_for 10].

(** The event that ended a run with status 1 is a failure reported to one
    of the NCCLCHECKs of the loops. *)
Definition reports_failure (ev : event) : Prop :=
  match ev with
  | Ev_allreduce r => r <> ncclSuccess
  | Ev_check t => check_call_fails t
  | Ev_sigterm => False
  end.

(** The part of a string before the first [x]. *)
Fixpoint upto (x : Z) (s : list Z) : list Z :=
  match s with
  | [] => []
  | ch :: rest => if ch =? x then [] else ch :: upto x rest
  end.

(** The hash of a host name cut at its first dot: [getHostHash] of the C
    string that holds the characters before the dot. *)
Definition host_hash (name : list Z) : option Z :=
  getHostHash (upto DOT name ++ [NUL]).

(** The loop of [getHostName] seen from position [i] on: it works on the
    rest of the array. *)
Fixpoint scan_rest (rest : list Z) (left : nat) {struct left} : option (list Z) :=
  match left with
  | O => Some rest
  | S left' =>
      match rest with
      | [] => None
      | ch :: rest' =>
          if ch =? DOT then Some (NUL :: rest')
          else cons ch <$> scan_rest rest' left'
      end
  end.

Definition is_query (c : call) : bool :=
  match c with
  | Call_ncclCommGetAsyncError _ => true
  | _ => false
  end.

Definition is_cudaSetDevice (c : call) : bool :=
  match c with
  | Call_cudaSetDevice _ => true
  | _ => false
  end.

(** The calls of the statements after the loop of [main]. *)
Definition is_teardown (c : call) : bool :=
  match c with
  | Call_cudaFree | Call_thread_join => true
  | _ => false
  end.

(** A computation that leaves the SIGTERM disposition as it found it. *)
Definition keeps_sigterm {A} (m : M A) : Prop :=
  forall w, sigterm (state_of (m w)) = sigterm w.

(** A diagnostic is one line: it ends with the newline of the format. *)
Definition one_line (s : string) : Prop := exists body : string, s = body +:+ nl.

(** What a failed check leaves behind: the process has exited with
    [EXIT_FAILURE], and the last thing it did after the wrapped call was to
    print [msg]. *)
Definition fails_with (msg : string) (w1 : world) (r : result unit) : Prop :=
  r = Exit EXIT_FAILURE (print msg w1).

(** *** Further observations *)

(** DJB2a as the comment in [getHostHash] states it, [result * 33 ^ char],
    on 64-bit unsigned integers, over a string without its terminator. *)
Definition djb2a_step (result ch : Z) : Z :=
  Z.lxor (wrap64 (result * 33)) (wrap64 ch).

Definition djb2a (s : list Z) : Z := fold_left djb2a_step s 5381.

(** [observes_fault] as a test. *)
Definition observes_faultb (t : health) : bool :=
  (query_ret t =? ncclSuccess) && negb (async_result t =? ncclSuccess).

(** [check_call_fails] as a test. *)
Definition check_call_failsb (t : health) : bool :=
  negb (query_ret t =? ncclSuccess)
  || (observes_faultb t && negb (abort_ret t =? ncclSuccess)).

(** A call into NCCL that names a communicator names [comm], and a
    collective is over [size] elements. *)
Definition targets (comm : ncclComm_t) (c : call) : bool :=
  match c with
  | Call_ncclAllReduce c' n => (c' =? comm) && (n =? size)
  | Call_ncclCommGetAsyncError c' | Call_ncclCommAbort c' => c' =? comm
  | _ => true
  end.

Definition is_unique_id (c : call) : bool :=
  match c with
  | Call_ncclGetUniqueId => true
  | _ => false
  end.

(** The events that end the process: a failure reported to an NCCLCHECK,
    or a signal. *)
Definition ends_process (ev : event) : bool :=
  match ev with
  | Ev_allreduce r => negb (r =? ncclSuccess)
  | Ev_check t => check_call_failsb t
  | Ev_sigterm => true
  end.

(** The events in which the watchdog observes a fault. *)
Definition finds_fault (ev : event) : bool :=
  match ev with
  | Ev_check t => observes_faultb t
  | _ => false
  end.

Definition is_alive (p : process) : bool :=
  match p with
  | Alive _ _ => true
  | _ => false
  end.


(** A computation that adds at most [k] calls of the kind [P] to the
    trace. *)
Definition adds_at_most {A} (P : call -> bool) (k : nat) (m : M A) : Prop :=
  forall w,
    (length (List.filter P (calls (state_of (m w))))
     <= length (List.filter P (calls w)) + k)%nat.

(** A computation that prints nothing unless it ends the process, which it
    then does with [EXIT_FAILURE] after one line of diagnostic. *)
Definition silent_or_fatal {A} (m : M A) : Prop :=
  forall w,
    match m w with
    | Ret _ w' | Undefined w' => out w' = out w
    | Exit code w' =>
        code = EXIT_FAILURE /\ exists s, out w' = out w ++ [s] /\ one_line s
    end.

(** ** Sample data *)

(** One process of a two-rank job, used to run the definitions. *)
Definition sample_FILE : string := "test.cc".

Definition sample_ncclGetErrorString (r : ncclResult_t) : string :=
  if r =? 0 then "no error"
  else if r =? 2 then "unhandled system error"
  else "internal error".

Definition sample_cudaGetErrorString (e : cudaError_t) : string :=
  if e =? 0 then "no error" else "out of memory".

Definition sample_comm : NCCLComm := {| nccl_comm_ := 4096 |}.

(** The process right after line 168, before it printed anything. *)
Definition sample_world : world := World [] [Call_thread_start] SIG_handler.

(** The process before line 125, and right after it. *)
Definition fresh_world : world := World [] [] SIG_DFL.
Definition armed_world : world := World [] [Call_signal SIGTERM] SIG_handler.

(** Four answers of the transport to a check. *)
Definition all_well : health := Health 0 0 0 0.
Definition fault_found : health := Health 0 2 0 7.
Definition query_broken : health := Health 3 0 0 0.
Definition abort_broken : health := Health 0 2 3 0.

(** [node1] and [node1.cluster], and the buffer [gethostname] leaves on the
    second host: the name, its terminator, and what was there before. *)
Definition node1 : list Z := [110; 111; 100; 101; 49].
Definition node1_cluster : list Z :=
  node1 ++ [46; 99; 108; 117; 115; 116; 101; 114].

Definition sample_gethostname (hostname : list Z) (maxlen : Z) : list Z :=
  node1_cluster ++ NUL :: drop 14 hostname.

(** The hash rank 0 contributes, and the gathered array on rank 1. *)
Definition node1_hash : Z := Eval vm_compute in default 0 (host_hash node1).

Definition sample_MPI_Allgather (hostHashs : list Z) : Z * list Z :=
  (MPI_SUCCESS, [node1_hash; default 0 (hostHashs !! 1%nat)]).

Definition sample_boot : boot := {|
  MPI_Init_ret := MPI_SUCCESS;
  MPI_Comm_rank_ret := MPI_SUCCESS;
  myRank_out := 1;
  MPI_Comm_size_ret := MPI_SUCCESS;
  nRanks_out := 2;
  hostHashs_junk := fun i => Z.of_nat i + 1000;
  hostname_junk := fun i => Z.of_nat i mod 251 + 1;
  gethostname := sample_gethostname;
  MPI_Allgather := sample_MPI_Allgather;
  MPI_Bcast_ret := MPI_SUCCESS;
  MPI_Finalize_ret := MPI_SUCCESS;
  cudaSetDevice_ret := cudaSuccess;
  cudaMalloc_sendbuff_ret := cudaSuccess;
  cudaMalloc_recvbuff_ret := cudaSuccess;
  cudaStreamCreate_ret := cudaSuccess;
  ncclCommInitRank_ret := ncclSuccess;
  comm_out := 4096;
  cudaFree_sendbuff_ret := cudaSuccess;
  cudaFree_recvbuff_ret := cudaSuccess
|}.

(** * Properties *)

(** ** Strings *)

Lemma append_assoc (a b c : string) : (a +:+ b) +:+ c = a +:+ b +:+ c.
Proof.
  induction a as [|x a IH]; [reflexivity|].
  change (String x ((a +:+ b) +:+ c) = String x (a +:+ b +:+ c)).
  now f_equal.
Qed.

Lemma contains_middle (a sub b : string) : contains sub (a +:+ sub +:+ b).
Proof. now exists a, b. Qed.

Lemma contains_after (a sub s : string) : contains sub s -> contains sub (a +:+ s).
Proof.
  intros (x & y & ->). exists (a +:+ x), y. now rewrite append_assoc.
Qed.

Create HintDb diag.
#[local] Hint Resolve contains_middle contains_after : diag.

(** ** The check macros *)

Lemma MPICHECK_eq line cmd w :
  MPICHECK line cmd w =
  match cmd w with
  | Ret e w1 =>
      if e =? MPI_SUCCESS then Ret tt w1
      else Exit EXIT_FAILURE (print (MPI_failed line e) w1)
  | Exit code w1 => Exit code w1
  | Undefined w1 => Undefined w1
  end.
Proof.
  unfold MPICHECK, bind. destruct (cmd w) as [e w1| |]; try reflexivity.
  now destruct (e =? MPI_SUCCESS).
Qed.

Lemma CUDACHECK_eq line cmd w :
  CUDACHECK line cmd w =
  match cmd w with
  | Ret e w1 =>
      if e =? cudaSuccess then Ret tt w1
      else Exit EXIT_FAILURE (print (Cuda_failed line e) w1)
  | Exit code w1 => Exit code w1
  | Undefined w1 => Undefined w1
  end.
Proof.
  unfold CUDACHECK, bind. destruct (cmd w) as [e w1| |]; try reflexivity.
  now destruct (e =? cudaSuccess).
Qed.

Lemma NCCLCHECK_eq line cmd w :
  NCCLCHECK line cmd w =
  match cmd w with
  | Ret r w1 =>
      if r =? ncclSuccess then Ret tt w1
      else Exit EXIT_FAILURE (print (NCCL_failed line r) w1)
  | Exit code w1 => Exit code w1
  | Undefined w1 => Undefined w1
  end.
Proof.
  unfold NCCLCHECK, bind. destruct (cmd w) as [r w1| |]; try reflexivity.
  now destruct (r =? ncclSuccess).
Qed.

Lemma MPI_failed_contains line e :
  contains FILE (MPI_failed line e) /\ contains (dec line) (MPI_failed line e)
  /\ contains (dec e) (MPI_failed line e).
Proof. unfold MPI_failed. auto 10 with diag. Qed.

Lemma Cuda_failed_contains line e :
  contains FILE (Cuda_failed line e) /\ contains (dec line) (Cuda_failed line e)
  /\ contains (cudaGetErrorString e) (Cuda_failed line e).
Proof. unfold Cuda_failed. auto 10 with diag. Qed.

Lemma NCCL_failed_contains line r :
  contains FILE (NCCL_failed line r) /\ contains (dec line) (NCCL_failed line r)
  /\ contains (ncclGetErrorString r) (NCCL_failed line r).
Proof. unfold NCCL_failed. auto 10 with diag. Qed.

(** C6. A wrapped MPI, CUDA or NCCL call that returns another value than the
    success value of its library makes the process print one line that
    contains the file, the line number and the error (the code for MPI, the
    error string for CUDA and NCCL) and exit with status 1. *)
Theorem check_macros_fail_fast (line e : Z) (cmd : M Z) (w w1 : world) :
  cmd w = Ret e w1 ->
  (e <> MPI_SUCCESS ->
     fails_with (MPI_failed line e) w1 (MPICHECK line cmd w)
     /\ one_line (MPI_failed line e)
     /\ contains FILE (MPI_failed line e)
     /\ contains (dec line) (MPI_failed line e)
     /\ contains (dec e) (MPI_failed line e))
  /\ (e <> cudaSuccess ->
     fails_with (Cuda_failed line e) w1 (CUDACHECK line cmd w)
     /\ one_line (Cuda_failed line e)
     /\ contains FILE (Cuda_failed line e)
     /\ contains (dec line) (Cuda_failed line e)
     /\ contains (cudaGetErrorString e) (Cuda_failed line e))
  /\ (e <> ncclSuccess ->
     fails_with (NCCL_failed line e) w1 (NCCLCHECK line cmd w)
     /\ one_line (NCCL_failed line e)
     /\ contains FILE (NCCL_failed line e)
     /\ contains (dec line) (NCCL_failed line e)
     /\ contains (ncclGetErrorString e) (NCCL_failed line e))
  /\ EXIT_FAILURE = 1.
Proof.
  intros Hcmd. split; [|split; [|split; [|reflexivity]]]; intros Hne;
    apply Z.eqb_neq in Hne; (split; [|split]).
  - unfold fails_with. now rewrite MPICHECK_eq, Hcmd, Hne.
  - exists ("Failed: MPI error " +:+ FILE +:+ ":" +:+ dec line +:+ " '"
            +:+ dec e +:+ "'").
    unfold MPI_failed. now rewrite !append_assoc.
  - apply MPI_failed_contains.
  - unfold fails_with. now rewrite CUDACHECK_eq, Hcmd, Hne.
  - exists ("Failed: Cuda error " +:+ FILE +:+ ":" +:+ dec line +:+ " '"
            +:+ cudaGetErrorString e +:+ "'").
    unfold Cuda_failed. now rewrite !append_assoc.
  - apply Cuda_failed_contains.
  - unfold fails_with. now rewrite NCCLCHECK_eq, Hcmd, Hne.
  - exists ("Failed, NCCL error " +:+ FILE +:+ ":" +:+ dec line +:+ " '"
            +:+ ncclGetErrorString e +:+ "'").
    unfold NCCL_failed. now rewrite !append_assoc.
  - apply NCCL_failed_contains.
Qed.

(** ** One health check *)

Lemma aborts_print s w : aborts (print s w) = aborts w.
Proof. reflexivity. Qed.

Lemma aborts_record c w :
  aborts (record c w) = (aborts w + (if is_abort c then 1 else 0))%nat.
Proof.
  unfold aborts, record; simpl. rewrite List.filter_app, length_app. simpl.
  now destruct (is_abort c).
Qed.

(** The four ways through [CheckNCCLError]. *)
Lemma CheckNCCLError_eq t self w :
  CheckNCCLError t self w =
  let w1 := record (Call_ncclCommGetAsyncError (nccl_comm_ self)) w in
  if query_ret t =? ncclSuccess then
    if async_result t =? ncclSuccess then Ret self w1
    else
      let w2 := record (Call_ncclCommAbort (nccl_comm_ self))
                  (print abort_starts (print (async_error_line (async_result t)) w1)) in
      if abort_ret t =? ncclSuccess
      then Ret self (print (abort_finishes (abort_ms t)) w2)
      else Exit EXIT_FAILURE (print (NCCL_failed 71 (abort_ret t)) w2)
  else Exit EXIT_FAILURE (print (NCCL_failed 66 (query_ret t)) w1).
Proof.
  unfold CheckNCCLError, bind. rewrite NCCLCHECK_eq. unfold extern at 1.
  destruct (query_ret t =? ncclSuccess); [|reflexivity].
  destruct (async_result t =? ncclSuccess); [reflexivity|]. simpl.
  unfold bind, printf. rewrite NCCLCHECK_eq. unfold extern.
  now destruct (abort_ret t =? ncclSuccess).
Qed.

Lemma check_once_eq t self w :
  check_once t self w =
  match CheckNCCLError t self w with
  | Ret c w' => Ret c (record (Call_sleep_for 10) w')
  | Exit code w' => Exit code w'
  | Undefined w' => Undefined w'
  end.
Proof. unfold check_once, bind. now destruct (CheckNCCLError t self w). Qed.

Lemma allreduce_once_eq r self w :
  allreduce_once r self w =
  let w1 := record (Call_ncclAllReduce (nccl_comm_ self) size) w in
  if r =? ncclSuccess then Ret self (record (Call_sleep_for 50) w1)
  else Exit EXIT_FAILURE (print (NCCL_failed 172 r) w1).
Proof.
  unfold allreduce_once, bind at 1. rewrite NCCLCHECK_eq.
  unfold bind, GetNCCLComm, ret, extern. now destruct (r =? ncclSuccess).
Qed.

(** A check that observes a fault calls [ncclCommAbort] once; any other
    check does not call it. *)
Lemma check_once_aborts t self w :
  aborts (state_of (check_once t self w)) =
  (aborts w + (if (query_ret t =? ncclSuccess)%Z
                   && negb (async_result t =? ncclSuccess)%Z
               then 1 else 0))%nat.
Proof.
  rewrite check_once_eq, CheckNCCLError_eq. cbv zeta.
  destruct (query_ret t =? ncclSuccess), (async_result t =? ncclSuccess),
    (abort_ret t =? ncclSuccess); simpl;
    repeat first [rewrite aborts_print | rewrite aborts_record]; simpl; lia.
Qed.

Lemma observes_fault_true t :
  observes_fault t ->
  (query_ret t =? ncclSuccess) && negb (async_result t =? ncclSuccess) = true.
Proof.
  intros [Hq Hr]. apply Z.eqb_eq in Hq. apply Z.eqb_neq in Hr. now rewrite Hq, Hr.
Qed.

Lemma world_of_settle r : world_of (settle r) = state_of r.
Proof. now destruct r. Qed.

(** ** Runs *)

Lemma run_app p evs1 evs2 : run p (evs1 ++ evs2) = run (run p evs1) evs2.
Proof. apply fold_left_app. Qed.

Lemma run_dead p evs : (forall c w, p <> Alive c w) -> run p evs = p.
Proof.
  intros Hp. induction evs as [|ev evs IH]; [reflexivity|]. simpl.
  destruct p; [now destruct (Hp nccl_comm w) | exact IH ..].
Qed.

Lemma step_aborts_le p ev : (aborts (world_of p) <= aborts (world_of (step p ev)))%nat.
Proof.
  destruct p as [c w| | |]; simpl; try lia. destruct ev as [r|t|].
  - rewrite world_of_settle, allreduce_once_eq. cbv zeta.
    destruct (r =? ncclSuccess); simpl;
      repeat first [rewrite aborts_print | rewrite aborts_record]; simpl; lia.
  - rewrite world_of_settle, check_once_aborts. lia.
  - unfold deliver. destruct (sigterm w); simpl; [lia|]. rewrite aborts_print. lia.
Qed.

Lemma run_aborts_le p evs : (aborts (world_of p) <= aborts (world_of (run p evs)))%nat.
Proof.
  revert p. induction evs as [|ev evs IH]; intros p; [simpl; lia|].
  change (run p (ev :: evs)) with (run (step p ev) evs).
  etransitivity; [apply step_aborts_le | apply IH].
Qed.

Lemma fault_state_Aborted w : fault_state w = Aborted <-> (0 < aborts w)%nat.
Proof.
  unfold fault_state. destruct (Nat.eqb_spec (aborts w) 0); split; intros; try lia; easy.
Qed.

Lemma fault_state_Healthy w : fault_state w = Healthy <-> aborts w = 0%nat.
Proof.
  unfold fault_state. destruct (Nat.eqb_spec (aborts w) 0); split; intros; try lia; easy.
Qed.

(** The method never touches its data member. *)
Lemma step_keeps_comm c w ev c' w' :
  step (Alive c w) ev = Alive c' w' -> c' = c.
Proof.
  destruct ev as [r|t|]; simpl.
  - rewrite allreduce_once_eq. cbv zeta. destruct (r =? ncclSuccess); simpl; congruence.
  - rewrite check_once_eq, CheckNCCLError_eq. cbv zeta.
    destruct (query_ret t =? ncclSuccess), (async_result t =? ncclSuccess),
      (abort_ret t =? ncclSuccess); simpl; congruence.
  - unfold deliver. destruct (sigterm w); simpl; congruence.
Qed.

Lemma run_keeps_comm evs c w c' w' :
  run (Alive c w) evs = Alive c' w' -> c' = c.
Proof.
  revert c w. induction evs as [|ev evs IH]; intros c w H.
  - simpl in H. congruence.
  - change (run (Alive c w) (ev :: evs)) with (run (step (Alive c w) ev) evs) in H.
    destruct (step (Alive c w) ev) as [c1 w1| | |] eqn:E.
    + apply step_keeps_comm in E. subst c1. now apply (IH c w1).
    + now rewrite run_dead in H.
    + now rewrite run_dead in H.
    + now rewrite run_dead in H.
Qed.

(** A run that ends in an exit has a last event: the process was alive
    before it and exited in it. *)
Lemma run_exit_inv evs c w code w' :
  run (Alive c w) evs = Exited code w' ->
  exists evs1 ev evs2 w1,
    evs = evs1 ++ ev :: evs2
    /\ run (Alive c w) evs1 = Alive c w1
    /\ step (Alive c w1) ev = Exited code w'.
Proof.
  revert w. induction evs as [|ev evs IH]; intros w H.
  - simpl in H. discriminate.
  - change (run (Alive c w) (ev :: evs)) with (run (step (Alive c w) ev) evs) in H.
    destruct (step (Alive c w) ev) as [c1 w1| | |] eqn:E.
    + pose proof (step_keeps_comm _ _ _ _ _ E) as ->.
      destruct (IH w1 H) as (evs1 & ev' & evs2 & w2 & -> & Hrun & Hstep).
      exists (ev :: evs1), ev', evs2, w2. split; [reflexivity|]. split; [|exact Hstep].
      change (run (Alive c w) (ev :: evs1)) with (run (step (Alive c w) ev) evs1).
      now rewrite E.
    + rewrite run_dead in H by easy. exists [], ev, evs, w. now rewrite E.
    + now rewrite run_dead in H.
    + now rewrite run_dead in H.
Qed.

(** Status 1 comes from an NCCLCHECK: of the collective, or of the check. *)
Lemma step_exit_failure c w ev w' :
  step (Alive c w) ev = Exited EXIT_FAILURE w' -> reports_failure ev.
Proof.
  destruct ev as [r|t|]; simpl.
  - rewrite allreduce_once_eq. cbv zeta.
    destruct (Z.eqb_spec r ncclSuccess); simpl; [discriminate | easy].
  - rewrite check_once_eq, CheckNCCLError_eq. cbv zeta. unfold check_call_fails, observes_fault.
    destruct (Z.eqb_spec (query_ret t) ncclSuccess); [|now left].
    destruct (Z.eqb_spec (async_result t) ncclSuccess); [simpl; discriminate|].
    destruct (Z.eqb_spec (abort_ret t) ncclSuccess); [simpl; discriminate|].
    intros _. now right.
  - unfold deliver. destruct (sigterm w); simpl; discriminate.
Qed.

Lemma step_check_fault_ok t c w :
  observes_fault t -> abort_ret t = ncclSuccess ->
  step (Alive c w) (Ev_check t) =
  Alive c (World
    (out w ++ [async_error_line (async_result t); abort_starts;
               abort_finishes (abort_ms t)])
    (calls w ++ [Call_ncclCommGetAsyncError (nccl_comm_ c);
                 Call_ncclCommAbort (nccl_comm_ c); Call_sleep_for 10])
    (sigterm w)).
Proof.
  intros [Hq Hr] Ha. simpl. rewrite check_once_eq, CheckNCCLError_eq. cbv zeta.
  apply Z.eqb_eq in Hq, Ha. apply Z.eqb_neq in Hr. rewrite Hq, Hr, Ha.
  unfold print, record; simpl. now rewrite <- !app_assoc.
Qed.

Lemma step_check_ok t c w :
  query_ret t = ncclSuccess -> async_result t = ncclSuccess ->
  step (Alive c w) (Ev_check t) =
  Alive c (World (out w) (calls w ++ quiet_turn c) (sigterm w)).
Proof.
  intros Hq Hr. simpl. rewrite check_once_eq, CheckNCCLError_eq. cbv zeta.
  apply Z.eqb_eq in Hq, Hr. rewrite Hq, Hr.
  unfold print, record, quiet_turn; simpl. now rewrite <- !app_assoc.
Qed.

(** ** The claims about the handle *)

(** C1 (amended). A check whose query succeeds and reports a code other than
    [ncclSuccess] calls [ncclCommAbort] exactly once, whatever happened
    before: the handle keeps no record of an earlier abort. From then on the
    communicator counts as aborted for the rest of the run; a check that
    follows and observes a fault again calls [ncclCommAbort] again, and only
    the checks to which the transport reports [ncclSuccess] do not call it. *)
Theorem abort_on_every_observed_fault (c : NCCLComm) (w : world) (t : health) :
  observes_fault t ->
  let p := step (Alive c w) (Ev_check t) in
  aborts (world_of p) = S (aborts w)
  /\ fault_state (world_of p) = Aborted
  /\ (forall evs, fault_state (world_of (run p evs)) = Aborted)
  /\ (forall t' c' w', observes_fault t' -> p = Alive c' w' ->
        aborts (world_of (step p (Ev_check t'))) = S (S (aborts w)))
  /\ (forall t', async_result t' = ncclSuccess ->
        aborts (world_of (step p (Ev_check t'))) = aborts (world_of p)).
Proof.
  intros Hf p.
  assert (Hp : aborts (world_of p) = S (aborts w)).
  { unfold p. simpl. rewrite world_of_settle, check_once_aborts.
    rewrite (observes_fault_true _ Hf). lia. }
  split; [exact Hp|]. split; [apply fault_state_Aborted; lia|].
  split; [|split].
  - intros evs. apply fault_state_Aborted. pose proof (run_aborts_le p evs). lia.
  - intros t' c' w' Hf' E. rewrite E in Hp |- *. simpl in Hp |- *.
    rewrite world_of_settle, check_once_aborts, (observes_fault_true _ Hf'). lia.
  - intros t' Hok. destruct p as [c' w'| | |]; try reflexivity. simpl.
    rewrite world_of_settle, check_once_aborts.
    apply Z.eqb_eq in Hok. rewrite Hok, andb_false_r. lia.
Qed.

(** C3. While the transport reports [ncclSuccess] to every check, no check
    calls [ncclCommAbort], the handle stays healthy and its data member is
    the one it had; when the queries themselves succeed too, the checks
    print nothing and leave the process running, having made only the query
    and the sleep of each turn. *)
Theorem ok_checks_leave_handle_healthy (ts : list health) (c : NCCLComm) (w : world) :
  Forall (fun t => async_result t = ncclSuccess) ts ->
  let p := run (Alive c w) (map Ev_check ts) in
  aborts (world_of p) = aborts w
  /\ (fault_state w = Healthy -> fault_state (world_of p) = Healthy)
  /\ (forall c' w', p = Alive c' w' -> c' = c)
  /\ (Forall (fun t => query_ret t = ncclSuccess) ts ->
      p = Alive c (World (out w)
                     (calls w ++ concat (map (fun _ => quiet_turn c) ts))
                     (sigterm w))).
Proof.
  intros Hok p.
  assert (Hab : aborts (world_of p) = aborts w).
  { unfold p. clear p. revert w. induction Hok as [|t ts Ht _ IH]; intros w; [reflexivity|].
    change (run (Alive c w) (map Ev_check (t :: ts)))
      with (run (step (Alive c w) (Ev_check t)) (map Ev_check ts)).
    assert (Hs : aborts (world_of (step (Alive c w) (Ev_check t))) = aborts w).
    { simpl. rewrite world_of_settle, check_once_aborts.
      apply Z.eqb_eq in Ht. rewrite Ht, andb_false_r. lia. }
    destruct (step (Alive c w) (Ev_check t)) as [c1 w1| | |] eqn:E.
    - pose proof (step_keeps_comm _ _ _ _ _ E) as ->. rewrite IH. exact Hs.
    - now rewrite run_dead.
    - now rewrite run_dead.
    - now rewrite run_dead. }
  split; [exact Hab|]. split; [|split].
  - rewrite !fault_state_Healthy. lia.
  - intros c' w'. apply run_keeps_comm.
  - intros Hq. unfold p. clear p Hab. revert w.
    induction ts as [|t ts IH]; intros w.
    + simpl. rewrite app_nil_r. now destruct w.
    + change (run (Alive c w) (map Ev_check (t :: ts)))
        with (run (step (Alive c w) (Ev_check t)) (map Ev_check ts)).
      apply Forall_cons in Hok as [Ht Hok]. apply Forall_cons in Hq as [Hqt Hq].
      rewrite (step_check_ok t c w Hqt Ht), (IH Hok Hq). simpl.
      now rewrite <- app_assoc.
Qed.

(** C4. Whatever the two threads and the transport did since the handle was
    constructed around [comm], checks that abort included, [GetNCCLComm]
    returns [comm] and changes nothing, and the handle still holds [comm]. *)
Theorem GetNCCLComm_returns_constructed (comm : ncclComm_t) (w : world)
    (evs : list event) (h : NCCLComm) (w' : world) :
  run (Alive {| nccl_comm_ := comm |} w) evs = Alive h w' ->
  GetNCCLComm h w' = Ret comm w' /\ h = {| nccl_comm_ := comm |}.
Proof.
  intros H. apply run_keeps_comm in H. now subst h.
Qed.

(** C9. A check can end the process by itself: when the query reports a
    failure, or when a fault is observed and the abort reports a failure,
    the NCCLCHECK of that call (line 66 or 71) prints its diagnostic and the
    process exits with status 1 without any further collective call. *)
Theorem check_alone_can_end_process (t : health) (c : NCCLComm) (w : world) :
  check_call_fails t ->
  exists line r w1,
    CheckNCCLError t c w = Exit EXIT_FAILURE (print (NCCL_failed line r) w1)
    /\ step (Alive c w) (Ev_check t) = Exited 1 (print (NCCL_failed line r) w1)
    /\ ((line = 66 /\ r = query_ret t /\ r <> ncclSuccess)
        \/ (line = 71 /\ r = abort_ret t /\ r <> ncclSuccess))
    /\ List.filter is_allreduce (calls w1) = List.filter is_allreduce (calls w).
Proof.
  intros [Hq | [[Hq Hr] Ha]].
  - exists 66, (query_ret t), (record (Call_ncclCommGetAsyncError (nccl_comm_ c)) w).
    assert (E : CheckNCCLError t c w = Exit EXIT_FAILURE
              (print (NCCL_failed 66 (query_ret t))
                 (record (Call_ncclCommGetAsyncError (nccl_comm_ c)) w))).
    { rewrite CheckNCCLError_eq. cbv zeta. apply Z.eqb_neq in Hq. now rewrite Hq. }
    split; [exact E|]. split; [simpl; now rewrite check_once_eq, E|].
    split; [now left|]. simpl. rewrite List.filter_app. simpl. apply app_nil_r.
  - exists 71, (abort_ret t),
      (record (Call_ncclCommAbort (nccl_comm_ c))
         (print abort_starts (print (async_error_line (async_result t))
            (record (Call_ncclCommGetAsyncError (nccl_comm_ c)) w)))).
    assert (E : CheckNCCLError t c w = Exit EXIT_FAILURE
              (print (NCCL_failed 71 (abort_ret t))
                 (record (Call_ncclCommAbort (nccl_comm_ c))
                    (print abort_starts (print (async_error_line (async_result t))
                       (record (Call_ncclCommGetAsyncError (nccl_comm_ c)) w)))))).
    { rewrite CheckNCCLError_eq. cbv zeta.
      apply Z.eqb_eq in Hq. apply Z.eqb_neq in Hr, Ha. now rewrite Hq, Hr, Ha. }
    split; [exact E|]. split; [simpl; now rewrite check_once_eq, E|].
    split; [now right|]. simpl. rewrite !List.filter_app. simpl. now rewrite !app_nil_r.
Qed.

(** C2 (amended). A check that observes a fault, and whose query and abort
    succeed, logs the error, aborts the communicator and leaves the process
    running. If the process later exits with status 1, the event that ended
    it is a failure reported to an NCCLCHECK: by [ncclAllReduce] in the
    foreground loop, or by the query or the abort of a later check. *)
Theorem fault_is_logged_and_exit_deferred (t : health) (c : NCCLComm) (w : world) :
  observes_fault t -> abort_ret t = ncclSuccess ->
  let p := step (Alive c w) (Ev_check t) in
  p = Alive c (World
        (out w ++ [async_error_line (async_result t); abort_starts;
                   abort_finishes (abort_ms t)])
        (calls w ++ [Call_ncclCommGetAsyncError (nccl_comm_ c);
                     Call_ncclCommAbort (nccl_comm_ c); Call_sleep_for 10])
        (sigterm w))
  /\ forall evs w', run p evs = Exited EXIT_FAILURE w' ->
       exists evs1 ev evs2 w1,
         evs = evs1 ++ ev :: evs2
         /\ run p evs1 = Alive c w1
         /\ step (Alive c w1) ev = Exited EXIT_FAILURE w'
         /\ reports_failure ev.
Proof.
  intros Hf Ha p. pose proof (step_check_fault_ok t c w Hf Ha) as E. fold p in E.
  split; [exact E|]. intros evs w' H. rewrite E in H |- *.
  destruct (run_exit_inv _ _ _ _ _ H) as (evs1 & ev & evs2 & w1 & -> & Hrun & Hstep).
  exists evs1, ev, evs2, w1. repeat split; try assumption.
  now apply step_exit_failure in Hstep.
Qed.

(** ** The signal handler *)

Lemma keeps_ret {A} (a : A) : keeps_sigterm (ret a).
Proof. now intros w. Qed.

Lemma keeps_printf s : keeps_sigterm (printf s).
Proof. now intros w. Qed.

Lemma keeps_exit {A} code : keeps_sigterm (@exit A code).
Proof. now intros w. Qed.

Lemma keeps_extern {A} c (r : A) : keeps_sigterm (extern c r).
Proof. now intros w. Qed.

Lemma keeps_of_option {A} (o : option A) : keeps_sigterm (of_option o).
Proof. now destruct o; intros w. Qed.

Lemma keeps_bind {A B} (m : M A) (k : A -> M B) :
  keeps_sigterm m -> (forall a, keeps_sigterm (k a)) -> keeps_sigterm (bind m k).
Proof.
  intros Hm Hk w. unfold bind. specialize (Hm w).
  destruct (m w) as [a w1| |]; simpl in *; try assumption.
  now rewrite Hk.
Qed.

Lemma keeps_if {A} (b : bool) (m1 m2 : M A) :
  keeps_sigterm m1 -> keeps_sigterm m2 -> keeps_sigterm (if b then m1 else m2).
Proof. now destruct b. Qed.

Lemma keeps_store a i v : keeps_sigterm (store a i v).
Proof. unfold store. destruct (at_index a i); now intros w. Qed.

Create HintDb sig.
#[local] Hint Resolve keeps_ret keeps_printf keeps_exit keeps_extern keeps_of_option
  keeps_if keeps_store : sig.
#[local] Hint Extern 1 (keeps_sigterm (bind _ _)) => apply keeps_bind; [|intros ?] : sig.
#[local] Hint Extern 1 (keeps_sigterm exit) => apply keeps_exit : sig.
#[local] Hint Extern 1 (keeps_sigterm undefined) => (now intros ?) : sig.

Lemma keeps_MPICHECK line cmd : keeps_sigterm cmd -> keeps_sigterm (MPICHECK line cmd).
Proof. intros H. unfold MPICHECK. auto 10 with sig. Qed.

Lemma keeps_CUDACHECK line cmd : keeps_sigterm cmd -> keeps_sigterm (CUDACHECK line cmd).
Proof. intros H. unfold CUDACHECK. auto 10 with sig. Qed.

Lemma keeps_NCCLCHECK line cmd : keeps_sigterm cmd -> keeps_sigterm (NCCLCHECK line cmd).
Proof. intros H. unfold NCCLCHECK. auto 10 with sig. Qed.

#[local] Hint Resolve keeps_MPICHECK keeps_CUDACHECK keeps_NCCLCHECK : sig.

(** Line 125 installs the handler, and nothing after it in the start-up of
    [main] touches the disposition. *)
Lemma main_boot_installs_handler e w :
  sigterm (state_of (main_boot e w)) = SIG_handler.
Proof.
  unfold main_boot. cbv zeta. unfold bind at 1. unfold signal_SIGTERM_handler at 1.
  match goal with |- sigterm (state_of (?m ?w1)) = _ =>
    assert (H : keeps_sigterm m); [|exact (H w1)] end.
  unfold getHostName. auto 40 with sig.
Qed.

Lemma step_keeps_sigterm p ev : sigterm (world_of (step p ev)) = sigterm (world_of p).
Proof.
  destruct p as [c w| | |]; try reflexivity. destruct ev as [r|t|]; simpl.
  - rewrite world_of_settle, allreduce_once_eq. cbv zeta. now destruct (r =? ncclSuccess).
  - rewrite world_of_settle, check_once_eq, CheckNCCLError_eq. cbv zeta.
    now destruct (query_ret t =? ncclSuccess), (async_result t =? ncclSuccess),
      (abort_ret t =? ncclSuccess).
  - unfold deliver. destruct (sigterm w) eqn:E; simpl; congruence.
Qed.

Lemma run_keeps_sigterm p evs : sigterm (world_of (run p evs)) = sigterm (world_of p).
Proof.
  revert p. induction evs as [|ev evs IH]; intros p; [reflexivity|].
  change (run p (ev :: evs)) with (run (step p ev) evs).
  now rewrite IH, step_keeps_sigterm.
Qed.

(** C7. [main] installs the handler in its first statement, line 125, and
    it stays installed whatever the start-up and the two loops do. With the
    handler installed, a SIGTERM that reaches the running process makes it
    print the message with the number of the signal, 15, and exit with
    status 0, which is not [EXIT_FAILURE], wherever it is interrupted. *)
Theorem SIGTERM_exits_with_status_0 (w : world) (resume : world -> process) :
  sigterm w = SIG_handler ->
  deliver SIGTERM resume w = Exited 0 (print (receive_signal SIGTERM) w)
  /\ (forall c, step (Alive c w) Ev_sigterm = Exited 0 (print (receive_signal SIGTERM) w))
  /\ (forall c evs c' w', run (Alive c w) evs = Alive c' w' ->
        step (Alive c' w') Ev_sigterm = Exited 0 (print (receive_signal SIGTERM) w'))
  /\ (forall e w0, sigterm (state_of (main_boot e w0)) = SIG_handler)
  /\ contains (dec SIGTERM) (receive_signal SIGTERM)
  /\ dec SIGTERM = "15"
  /\ 0 <> EXIT_FAILURE.
Proof.
  intros H.
  assert (D : forall w1 k, sigterm w1 = SIG_handler ->
            deliver SIGTERM k w1 = Exited 0 (print (receive_signal SIGTERM) w1)).
  { intros w1 k H1. unfold deliver. now rewrite H1. }
  split; [now apply D|]. split; [intros c; now apply D|]. split.
  - intros c evs c' w' E. apply D.
    pose proof (run_keeps_sigterm (Alive c w) evs) as K. rewrite E in K.
    simpl in K. congruence.
  - split; [apply main_boot_installs_handler|].
    split; [unfold receive_signal; apply contains_middle|].
    split; [reflexivity | unfold EXIT_FAILURE; lia].
Qed.

(** ** The loops *)

Lemma while_true_not_done {S} (body : nat -> S -> M S) fuel i s w s' w' :
  while (fun _ => true) body fuel i s w <> Ret (Done s') w'.
Proof.
  revert i s w. induction fuel as [|fuel IH]; intros i s w; simpl.
  - discriminate.
  - unfold bind. destruct (body i s w) as [s1 w1| |]; [apply IH | discriminate ..].
Qed.

(** After [fuel] completed turns the loop starts turn number [fuel]. *)
Lemma while_true_next {S} (body : nat -> S -> M S) fuel i s w s' w' :
  while (fun _ => true) body fuel i s w = Ret (Spinning s') w' ->
  while (fun _ => true) body (Datatypes.S fuel) i s w =
  (do s'' <- body (i + fuel)%nat s' ;; ret (Spinning s'')) w'.
Proof.
  revert i s w. induction fuel as [|fuel IH]; intros i s w H.
  - simpl in H. injection H as -> ->. rewrite Nat.add_0_r. reflexivity.
  - change (while (fun _ => true) body (Datatypes.S fuel) i s w)
      with ((do s1 <- body i s ;; while (fun _ => true) body fuel (Datatypes.S i) s1) w) in H.
    change (while (fun _ => true) body (Datatypes.S (Datatypes.S fuel)) i s w)
      with ((do s1 <- body i s ;;
             while (fun _ => true) body (Datatypes.S fuel) (Datatypes.S i) s1) w).
    unfold bind at 1 in H. unfold bind at 1.
    destruct (body i s w) as [s1 w1| |]; try discriminate.
    rewrite (IH _ _ _ H). now rewrite Nat.add_succ_comm.
Qed.

Lemma while_true_exit {S} (body : nat -> S -> M S) fuel i s w code w' :
  (forall j s1 w1 code1 w2, body j s1 w1 = Exit code1 w2 -> code1 = EXIT_FAILURE) ->
  while (fun _ => true) body fuel i s w = Exit code w' -> code = EXIT_FAILURE.
Proof.
  intros Hb. revert i s w. induction fuel as [|fuel IH]; intros i s w; simpl.
  - discriminate.
  - unfold bind. destruct (body i s w) as [s1 w1| |] eqn:E; [apply IH | | discriminate].
    intros H. injection H as -> ->. eauto.
Qed.

Lemma while_true_defined {S} (body : nat -> S -> M S) fuel i s w w' :
  (forall j s1 w1 w2, body j s1 w1 <> Undefined w2) ->
  while (fun _ => true) body fuel i s w <> Undefined w'.
Proof.
  intros Hb. revert i s w. induction fuel as [|fuel IH]; intros i s w; simpl.
  - discriminate.
  - unfold bind. destruct (body i s w) as [s1 w1| |] eqn:E; [apply IH | discriminate |].
    now destruct (Hb _ _ _ _ E).
Qed.

Lemma while_true_teardown {S} (body : nat -> S -> M S) fuel i s w :
  (forall j s1 w1, List.filter is_teardown (calls (state_of (body j s1 w1)))
                   = List.filter is_teardown (calls w1)) ->
  List.filter is_teardown (calls (state_of (while (fun _ => true) body fuel i s w)))
  = List.filter is_teardown (calls w).
Proof.
  intros Hb. revert i s w. induction fuel as [|fuel IH]; intros i s w; simpl.
  - reflexivity.
  - unfold bind. specialize (Hb i s w).
    destruct (body i s w) as [s1 w1| |]; simpl in Hb; [now rewrite IH | assumption ..].
Qed.

Lemma allreduce_once_exit r c w code w' :
  allreduce_once r c w = Exit code w' -> code = EXIT_FAILURE.
Proof.
  rewrite allreduce_once_eq. cbv zeta. destruct (r =? ncclSuccess); congruence.
Qed.

Lemma check_once_exit t c w code w' :
  check_once t c w = Exit code w' -> code = EXIT_FAILURE.
Proof.
  rewrite check_once_eq, CheckNCCLError_eq. cbv zeta.
  destruct (query_ret t =? ncclSuccess), (async_result t =? ncclSuccess),
    (abort_ret t =? ncclSuccess); simpl; congruence.
Qed.

Lemma allreduce_once_teardown r c w :
  List.filter is_teardown (calls (state_of (allreduce_once r c w)))
  = List.filter is_teardown (calls w).
Proof.
  rewrite allreduce_once_eq. cbv zeta.
  destruct (r =? ncclSuccess); simpl; rewrite ?List.filter_app; simpl;
    now rewrite ?app_nil_r.
Qed.

Lemma step_exit_code c w ev code w' :
  step (Alive c w) ev = Exited code w' ->
  (code = 0 /\ ev = Ev_sigterm) \/ (code = EXIT_FAILURE /\ reports_failure ev).
Proof.
  intros H. destruct ev as [r|t|].
  - right. simpl in H. assert (code = EXIT_FAILURE) as ->.
    { destruct (allreduce_once r c w) eqn:E; try discriminate.
      injection H as -> ->. eapply allreduce_once_exit, E. }
    split; [reflexivity | eapply step_exit_failure, H].
  - right. simpl in H. assert (code = EXIT_FAILURE) as ->.
    { destruct (check_once t c w) eqn:E; try discriminate.
      injection H as -> ->. eapply check_once_exit, E. }
    split; [reflexivity | eapply step_exit_failure, H].
  - left. simpl in H. unfold deliver in H. destruct (sigterm w); simpl in H; [discriminate|].
    now injection H as <- _.
Qed.

Lemma while_true_state {S} (body : nat -> S -> M S) fuel i s w s' w' :
  (forall j s1 w1 s2 w2, body j s1 w1 = Ret s2 w2 -> s2 = s1) ->
  while (fun _ => true) body fuel i s w = Ret (Spinning s') w' -> s' = s.
Proof.
  intros Hb. revert i s w. induction fuel as [|fuel IH]; intros i s w; simpl.
  - unfold ret. congruence.
  - unfold bind. destruct (body i s w) as [s1 w1| |] eqn:E; try discriminate.
    intros H. apply IH in H. apply Hb in E. congruence.
Qed.

Lemma allreduce_once_state r c w c' w' :
  allreduce_once r c w = Ret c' w' -> c' = c.
Proof.
  rewrite allreduce_once_eq. cbv zeta. destruct (r =? ncclSuccess); congruence.
Qed.

Lemma allreduce_once_defined r c w w' : allreduce_once r c w <> Undefined w'.
Proof.
  rewrite allreduce_once_eq. cbv zeta. destruct (r =? ncclSuccess); discriminate.
Qed.

Lemma check_once_defined t c w w' : check_once t c w <> Undefined w'.
Proof.
  rewrite check_once_eq, CheckNCCLError_eq. cbv zeta.
  destruct (query_ret t =? ncclSuccess), (async_result t =? ncclSuccess),
    (abort_ret t =? ncclSuccess); discriminate.
Qed.

(** The foreground loop prints nothing but the diagnostic of its check. *)
Lemma while_true_out allreduce fuel i c w s :
  In s (out (state_of
          (while (fun _ => true) (fun i => allreduce_once (allreduce i)) fuel i c w))) ->
  In s (out w) \/ exists j, s = NCCL_failed 172 (allreduce j).
Proof.
  revert i c w. induction fuel as [|fuel IH]; intros i c w; simpl; [now left|].
  unfold bind. rewrite allreduce_once_eq. cbv zeta.
  destruct (allreduce i =? ncclSuccess); simpl.
  - intros H. apply IH in H. exact H.
  - intros H. apply in_app_or in H as [H|[<-|[]]]; [now left | right; now exists i].
Qed.

(** A loop that is still iterating after [fuel] turns has made the call of
    its turn [fuel] times. *)
Lemma while_allreduce_count allreduce fuel i c w s w' :
  while (fun _ => true) (fun i => allreduce_once (allreduce i)) fuel i c w
  = Ret (Spinning s) w' ->
  length (List.filter is_allreduce (calls w'))
  = (length (List.filter is_allreduce (calls w)) + fuel)%nat.
Proof.
  revert i c w. induction fuel as [|fuel IH]; intros i c w; simpl.
  - unfold ret. intros H. injection H as _ <-. lia.
  - unfold bind. rewrite allreduce_once_eq. cbv zeta.
    destruct (allreduce i =? ncclSuccess); [|discriminate].
    intros H. apply IH in H. rewrite H. simpl.
    rewrite !List.filter_app, !length_app. simpl. lia.
Qed.

Lemma while_query_count transport fuel i c w s w' :
  while (fun _ => true) (fun i => check_once (transport i)) fuel i c w
  = Ret (Spinning s) w' ->
  length (List.filter is_query (calls w'))
  = (length (List.filter is_query (calls w)) + fuel)%nat.
Proof.
  revert i c w. induction fuel as [|fuel IH]; intros i c w; simpl.
  - unfold ret. intros H. injection H as _ <-. lia.
  - unfold bind. rewrite check_once_eq, CheckNCCLError_eq. cbv zeta.
    destruct (query_ret (transport i) =? ncclSuccess); [|discriminate].
    destruct (async_result (transport i) =? ncclSuccess).
    + intros H. apply IH in H. rewrite H. simpl.
      rewrite !List.filter_app, !length_app. simpl. lia.
    + destruct (abort_ret (transport i) =? ncclSuccess); [|discriminate].
      intros H. apply IH in H. rewrite H. simpl.
      rewrite !List.filter_app, !length_app. simpl. lia.
Qed.

(** What [main_loop] is when its loop is still iterating. *)
Lemma main_loop_spinning e allreduce fuel myRank c w :
  main_loop e allreduce fuel myRank c w =
  match while (fun _ => true) (fun i => allreduce_once (allreduce i)) fuel 0%nat c w with
  | Ret _ w' => Ret None w'
  | Exit code w' => Exit code w'
  | Undefined w' => Undefined w'
  end.
Proof.
  unfold main_loop, bind at 1.
  destruct (while _ _ fuel 0%nat c w) as [[s|s] w1| |] eqn:E; try reflexivity.
  now destruct (while_true_not_done _ _ _ _ _ _ _ E).
Qed.

(** C8. Neither loop is ever left through its condition. However long the
    process is observed, [main] has not returned and has made none of the
    calls that follow its loop, and the watchdog has not left its loop; a
    loop that has completed [fuel] turns starts the next one; the loops end
    only in the [exit] of an NCCLCHECK (status 1), and the process only so
    or in the [exit] of the signal handler (status 0). *)
Theorem loops_never_end (e : boot) (allreduce : nat -> ncclResult_t)
    (transport : nat -> health) (fuel : nat) (myRank : Z) (c : NCCLComm) (w : world) :
  let fg := main_loop e allreduce fuel myRank c w in
  let bg := checkNCCLError transport fuel c w in
  (forall v w', fg <> Ret (Some v) w')
  /\ (forall c' w', bg <> Ret (Done c') w')
  /\ List.filter is_teardown (calls (state_of fg)) = List.filter is_teardown (calls w)
  /\ (forall s, In s (out (state_of fg)) ->
        In s (out w) \/ exists i, s = NCCL_failed 172 (allreduce i))
  /\ (forall code w', fg = Exit code w' -> code = EXIT_FAILURE)
  /\ (forall code w', bg = Exit code w' -> code = EXIT_FAILURE)
  /\ (forall w', fg <> Undefined w' /\ bg <> Undefined w')
  /\ (forall w', fg = Ret None w' ->
        length (List.filter is_allreduce (calls w'))
        = (length (List.filter is_allreduce (calls w)) + fuel)%nat
        /\ main_loop e allreduce (S fuel) myRank c w =
           (do _ <- allreduce_once (allreduce fuel) c ;; ret None) w')
  /\ (forall c' w', bg = Ret (Spinning c') w' ->
        length (List.filter is_query (calls w'))
        = (length (List.filter is_query (calls w)) + fuel)%nat
        /\ checkNCCLError transport (S fuel) c w =
           (do c'' <- check_once (transport fuel) c' ;; ret (Spinning c'')) w')
  /\ (forall evs code w', run (Alive c w) evs = Exited code w' ->
        (code = 0 /\ In Ev_sigterm evs)
        \/ (code = EXIT_FAILURE /\ exists ev, In ev evs /\ reports_failure ev)).
Proof.
  intros fg bg. unfold fg, bg, checkNCCLError. rewrite !main_loop_spinning.
  split; [|split; [|split; [|split; [|split; [|split; [|split; [|split; [|split]]]]]]]].
  - intros v w'. destruct (while _ _ fuel 0%nat c w); discriminate.
  - intros c' w'. apply while_true_not_done.
  - rewrite <- (while_true_teardown (fun i => allreduce_once (allreduce i)) fuel 0%nat c w).
    + now destruct (while _ _ fuel 0%nat c w).
    + intros j s1 w1. apply allreduce_once_teardown.
  - intros s Hs. apply (while_true_out allreduce fuel 0%nat c w).
    now destruct (while _ _ fuel 0%nat c w).
  - intros code w' H.
    destruct (while _ _ fuel 0%nat c w) as [a w1|code1 w1|w1] eqn:E; try discriminate.
    injection H as -> ->. eapply while_true_exit, E.
    intros j s1 w2 code2 w3. apply allreduce_once_exit.
  - intros code w'. apply while_true_exit.
    intros j s1 w2 code2 w3. apply check_once_exit.
  - intros w'. split.
    + destruct (while _ _ fuel 0%nat c w) as [a w1|code1 w1|w1] eqn:E; try discriminate.
      exfalso. eapply while_true_defined, E. intros j s1 w2 w3. apply allreduce_once_defined.
    + apply while_true_defined. intros j s1 w2 w3. apply check_once_defined.
  - intros w' H.
    destruct (while _ _ fuel 0%nat c w) as [[s|s] w1|code1 w1|w1] eqn:E; try discriminate.
    + now destruct (while_true_not_done _ _ _ _ _ _ _ E).
    + injection H as ->. split; [eapply while_allreduce_count, E|].
      assert (s = c) as ->.
      { eapply while_true_state, E. intros j s1 w2 s2 w3. apply allreduce_once_state. }
      rewrite (while_true_next _ _ _ _ _ _ _ E). simpl. unfold bind.
      now destruct (allreduce_once (allreduce fuel) c w').
  - intros c' w' H. split; [eapply while_query_count, H|].
    now rewrite (while_true_next _ _ _ _ _ _ _ H).
  - intros evs code w' H.
    destruct (run_exit_inv _ _ _ _ _ H) as (evs1 & ev & evs2 & w1 & -> & _ & Hstep).
    destruct (step_exit_code _ _ _ _ _ Hstep) as [[-> ->] | [-> Hr]].
    + left. split; [reflexivity|]. apply in_or_app. right. now left.
    + right. split; [reflexivity|]. exists ev. split; [|exact Hr].
      apply in_or_app. right. now left.
Qed.

(** ** Host names *)

Lemma scan_finds (filled : list Z) left i k :
  filled !! (i + k)%nat = Some DOT ->
  (forall j, (i <= j < i + k)%nat -> filled !! j <> Some DOT) ->
  (k < left)%nat ->
  getHostName_scan filled i left = Some (<[(i + k)%nat:=NUL]> filled).
Proof.
  revert i k. induction left as [|left IH]; intros i k Hdot Hbefore Hk; [lia|].
  simpl. destruct k as [|k].
  - rewrite Nat.add_0_r in *. rewrite Hdot. reflexivity.
  - destruct (lookup_lt_is_Some_2 filled i) as [ch Hch].
    { apply lookup_lt_Some in Hdot. lia. }
    rewrite Hch. destruct (Z.eqb_spec ch DOT) as [->|_].
    + destruct (Hbefore i); [lia | assumption].
    + rewrite <- Nat.add_succ_comm in *. apply IH; [assumption | | lia].
      intros j Hj. apply Hbefore. lia.
Qed.

Lemma scan_finds_nothing (filled : list Z) left i :
  (i + left <= length filled)%nat ->
  (forall j, (i <= j < i + left)%nat -> filled !! j <> Some DOT) ->
  getHostName_scan filled i left = Some filled.
Proof.
  revert i. induction left as [|left IH]; intros i Hlen Hno; [reflexivity|].
  simpl. destruct (lookup_lt_is_Some_2 filled i) as [ch Hch]; [lia|].
  rewrite Hch. destruct (Z.eqb_spec ch DOT) as [->|_].
  - destruct (Hno i); [lia | assumption].
  - apply IH; [lia|]. intros j Hj. apply Hno. lia.
Qed.

Lemma getHostName_eq gh hostname maxlen w :
  getHostName gh hostname maxlen w =
  match getHostName_scan (gh hostname maxlen) 0 (Z.to_nat maxlen) with
  | Some buf => Ret buf (record (Call_gethostname maxlen) w)
  | None => Undefined (record (Call_gethostname maxlen) w)
  end.
Proof.
  unfold getHostName, bind, extern.
  now destruct (getHostName_scan (gh hostname maxlen) 0 (Z.to_nat maxlen)).
Qed.

(** C10. [getHostName] looks at the first [maxlen] characters of the buffer
    that [gethostname] filled, and at no other. If one of them is a dot, the
    first dot is replaced by 0 and every other character keeps its value; if
    none of them is a dot, there may be dots further on, and the buffer
    comes back as [gethostname] left it, with nothing written to it. *)
Theorem getHostName_cuts_at_first_dot (gh : list Z -> Z -> list Z)
    (hostname : list Z) (maxlen : Z) (w : world) :
  let filled := gh hostname maxlen in
  let w1 := record (Call_gethostname maxlen) w in
  (Z.to_nat maxlen <= length filled)%nat ->
  (forall i : nat,
      (i < Z.to_nat maxlen)%nat ->
      filled !! i = Some DOT ->
      (forall j, (j < i)%nat -> filled !! j <> Some DOT) ->
      getHostName gh hostname maxlen w = Ret (<[i:=NUL]> filled) w1
      /\ <[i:=NUL]> filled !! i = Some NUL
      /\ (forall j, j <> i -> <[i:=NUL]> filled !! j = filled !! j)
      /\ length (<[i:=NUL]> filled) = length filled)
  /\ ((forall j, (j < Z.to_nat maxlen)%nat -> filled !! j <> Some DOT) ->
      getHostName gh hostname maxlen w = Ret filled w1).
Proof.
  intros filled w1 Hlen. split.
  - intros i Hi Hdot Hfirst. split; [|split; [|split]].
    + rewrite getHostName_eq. fold filled.
      rewrite (scan_finds filled (Z.to_nat maxlen) 0 i); try assumption.
      * reflexivity.
      * intros j Hj. apply Hfirst. lia.
    + apply list_lookup_insert_eq. lia.
    + intros j Hj. now apply list_lookup_insert_ne.
    + apply length_insert.
  - intros Hno. rewrite getHostName_eq. fold filled.
    rewrite scan_finds_nothing; [reflexivity | lia |].
    intros j Hj. apply Hno. lia.
Qed.

(** *** The host hash *)

Lemma scan_as_rest left pre rest :
  getHostName_scan (pre ++ rest) (length pre) left = app pre <$> scan_rest rest left.
Proof.
  revert pre rest. induction left as [|left IH]; intros pre rest; [reflexivity|].
  simpl. destruct rest as [|ch rest].
  - rewrite lookup_ge_None_2; [reflexivity | rewrite length_app; simpl; lia].
  - rewrite list_lookup_middle by reflexivity. destruct (ch =? DOT).
    + simpl. f_equal. rewrite <- (Nat.add_0_r (length pre)). now rewrite insert_app_r.
    + replace (pre ++ ch :: rest) with ((pre ++ [ch]) ++ rest) by now rewrite <- app_assoc.
      replace (S (length pre)) with (length (pre ++ [ch]))
        by (rewrite length_app; simpl; lia).
      rewrite IH. destruct (scan_rest rest left); simpl; [|reflexivity].
      now rewrite <- app_assoc.
Qed.

Lemma scan_rest_total left rest :
  (left <= length rest)%nat -> is_Some (scan_rest rest left).
Proof.
  revert rest. induction left as [|left IH]; intros rest Hlen; simpl; [eauto|].
  destruct rest as [|ch rest]; simpl in Hlen; [lia|].
  destruct (ch =? DOT); [eauto|]. destruct (IH rest) as [b ->]; [lia | simpl; eauto].
Qed.

(** Cutting the buffer at the first dot cuts the C string in it at its
    first dot, when the string ends within the scanned part. *)
Lemma scan_rest_cstring left rest buf :
  scan_rest rest left = Some buf ->
  (length (upto NUL rest) < left)%nat ->
  upto NUL buf = upto DOT (upto NUL rest).
Proof.
  revert rest buf. induction left as [|left IH]; intros rest buf H Hlen; [lia|].
  simpl in H. destruct rest as [|ch rest]; [discriminate|].
  simpl in Hlen |- *. destruct (Z.eqb_spec ch DOT) as [->|Hd].
  - injection H as <-. reflexivity.
  - destruct (scan_rest rest left) as [b|] eqn:E; [|discriminate].
    simpl in H. injection H as <-. simpl.
    destruct (Z.eqb_spec ch NUL) as [->|Hn]; [reflexivity|].
    simpl in Hlen |- *. apply Z.eqb_neq in Hd. rewrite Hd. f_equal.
    apply IH; [assumption | lia].
Qed.

Lemma scan_rest_keeps_NUL left rest buf :
  scan_rest rest left = Some buf -> In NUL rest -> In NUL buf.
Proof.
  revert rest buf. induction left as [|left IH]; intros rest buf H Hin; simpl in H.
  - now injection H as <-.
  - destruct rest as [|ch rest]; [discriminate|]. destruct (Z.eqb_spec ch DOT) as [->|Hd].
    + injection H as <-. now left.
    + destruct (scan_rest rest left) as [b|] eqn:E; [|discriminate].
      simpl in H. injection H as <-. destruct Hin as [->|Hin]; [now left|].
      right. now apply (IH rest).
Qed.

Lemma upto_length_lt x l : In x l -> (length (upto x l) < length l)%nat.
Proof.
  induction l as [|ch l IH]; intros Hin; [easy|]. simpl.
  destruct (Z.eqb_spec ch x) as [->|Hne]; simpl; [lia|].
  destruct Hin as [->|Hin]; [easy|]. specialize (IH Hin). lia.
Qed.

(** [getHostHash] reads the C string and nothing after it. *)
Lemma hash_cstring b r :
  In NUL b -> getHostHash_from b r = getHostHash_from (upto NUL b ++ [NUL]) r.
Proof.
  revert r. induction b as [|ch b IH]; intros r Hin; [easy|]. simpl.
  destruct (Z.eqb_spec ch NUL) as [->|Hne]; [reflexivity|].
  simpl. apply Z.eqb_neq in Hne. rewrite Hne.
  destruct Hin as [->|Hin]; [now rewrite Z.eqb_refl in Hne|]. now apply IH.
Qed.

Lemma hash_terminates b r : In NUL b -> is_Some (getHostHash_from b r).
Proof.
  revert r. induction b as [|ch b IH]; intros r Hin; [easy|]. simpl.
  destruct (Z.eqb_spec ch NUL) as [->|Hne]; [eauto|].
  destruct Hin as [->|Hin]; [easy|]. now apply IH.
Qed.

(** The comment of [getHostHash]: each step is [result * 33 ^ char]. *)
Lemma hash_step_33 result ch :
  Z.lxor (wrap64 (wrap64 (Z.shiftl result 5) + result)) (wrap64 ch)
  = Z.lxor (wrap64 (result * 33)) (wrap64 ch).
Proof.
  f_equal. unfold wrap64. rewrite Z.shiftl_mul_pow2 by lia.
  rewrite Zplus_mod_idemp_l. f_equal. lia.
Qed.

(** What lines 135 and 136 compute: the buffer after [getHostName] hashes
    to the hash of the host name, cut at its first dot. *)
Lemma getHostName_then_hash gh hostname maxlen w :
  let filled := gh hostname maxlen in
  Z.of_nat (length filled) = maxlen ->
  In NUL filled ->
  exists buf h,
    getHostName gh hostname maxlen w = Ret buf (record (Call_gethostname maxlen) w)
    /\ getHostHash buf = Some h
    /\ host_hash (upto NUL filled) = Some h.
Proof.
  intros filled Hlen Hnul. rewrite getHostName_eq. fold filled.
  pose proof (scan_as_rest (Z.to_nat maxlen) [] filled) as E. simpl in E. rewrite E.
  destruct (scan_rest_total (Z.to_nat maxlen) filled) as [buf Hbuf]; [lia|].
  rewrite Hbuf. simpl.
  assert (Hbn : In NUL buf) by (eapply scan_rest_keeps_NUL; eauto).
  destruct (hash_terminates buf 5381 Hbn) as [h Hh].
  exists buf, h. split; [reflexivity|]. split; [exact Hh|].
  unfold host_hash, getHostHash. rewrite <- Hh, (hash_cstring buf) by assumption.
  f_equal. f_equal. symmetry. eapply scan_rest_cstring; [eassumption|].
  pose proof (upto_length_lt NUL filled Hnul). lia.
Qed.

(** *** The local rank *)

Lemma at_index_nat {A} (l : list A) (i : nat) : at_index l (Z.of_nat i) = l !! i.
Proof.
  unfold at_index. destruct (Z.ltb_spec (Z.of_nat i) 0); [lia|]. now rewrite Nat2Z.id.
Qed.

(** The loop counts the entries before [myRank] that equal the entry at
    [myRank]. *)
Lemma localRank_loop_counts (hostHashs : list Z) (m : nat) (hm : Z) left p acc :
  hostHashs !! m = Some hm ->
  (p <= m)%nat -> (m - p < left)%nat ->
  localRank_loop hostHashs (Z.of_nat m) (Z.of_nat p) left acc
  = Some (acc + Z.of_nat (length (List.filter (fun a => a =? hm)
                                    (drop p (take m hostHashs))))).
Proof.
  intros Hm. revert p acc. induction left as [|left IH]; intros p acc Hp Hleft; [lia|].
  simpl. destruct (Z.eqb_spec (Z.of_nat p) (Z.of_nat m)) as [E|E].
  - apply Nat2Z.inj in E. subst p. rewrite drop_ge by (rewrite length_take; lia).
    simpl. f_equal. lia.
  - assert (Hlt : (p < m)%nat) by lia.
    rewrite !at_index_nat, Hm.
    destruct (lookup_lt_is_Some_2 hostHashs p) as [a Ha].
    { apply lookup_lt_Some in Hm. lia. }
    rewrite Ha. replace (Z.of_nat p + 1) with (Z.of_nat (S p)) by lia.
    rewrite IH by lia.
    rewrite (drop_S (take m hostHashs) a p).
    2:{ rewrite lookup_take. now destruct (decide (p < m)%nat). }
    simpl. destruct (a =? hm); simpl; f_equal; lia.
Qed.

Lemma count_by_host (hostHashs : list Z) (hosts : list (list Z)) (hm : Z) (m : nat) :
  Some <$> hostHashs = host_hash <$> hosts ->
  length (List.filter (fun a => a =? hm) (take m hostHashs))
  = length (List.filter (fun name => bool_decide (host_hash name = Some hm))
              (take m hosts)).
Proof.
  revert hosts m. induction hostHashs as [|a l IH]; intros hosts m Hmap.
  - destruct hosts; [|discriminate]. now rewrite !take_nil.
  - destruct hosts as [|name hosts]; [discriminate|]. rewrite !fmap_cons in Hmap.
    injection Hmap as Ha Hmap. destruct m as [|m]; [reflexivity|]. simpl.
    rewrite <- Ha. destruct (Z.eqb_spec a hm) as [->|Hne].
    + rewrite bool_decide_eq_true_2 by reflexivity. simpl. f_equal. now apply IH.
    + rewrite bool_decide_eq_false_2 by congruence. now apply IH.
Qed.

(** *** The start of [main] *)

Lemma bind_Ret {A B} (m : M A) (k : A -> M B) w a w1 :
  m w = Ret a w1 -> bind m k w = k a w1.
Proof. intros H. unfold bind. now rewrite H. Qed.

Lemma MPICHECK_ok line c e w :
  e = MPI_SUCCESS -> MPICHECK line (extern c e) w = Ret tt (record c w).
Proof. intros ->. reflexivity. Qed.

(** From [cudaSetDevice] on, [main_boot] selects no other device. *)
Lemma one_cudaSetDevice (k : M (Z * NCCLComm)) localRank r w :
  (forall w1, List.filter is_cudaSetDevice (calls (state_of (k w1)))
              = List.filter is_cudaSetDevice (calls w1)) ->
  List.filter is_cudaSetDevice
    (calls (state_of
       ((do _ <- CUDACHECK 159 (extern (Call_cudaSetDevice localRank) r) ;; k) w)))
  = List.filter is_cudaSetDevice (calls w) ++ [Call_cudaSetDevice localRank].
Proof.
  intros Hk. unfold bind. rewrite CUDACHECK_eq. unfold extern.
  destruct (r =? cudaSuccess); [rewrite Hk|]; simpl; now rewrite List.filter_app.
Qed.

Lemma after_cudaSetDevice (e : boot) (nRanks myRank : Z) w1 :
  List.filter is_cudaSetDevice (calls (state_of
    ((do _ <- CUDACHECK 160
         (extern (Call_cudaMalloc (size * sizeof_float)) (cudaMalloc_sendbuff_ret e)) ;;
      do _ <- CUDACHECK 161
         (extern (Call_cudaMalloc (size * sizeof_float)) (cudaMalloc_recvbuff_ret e)) ;;
      do _ <- CUDACHECK 162 (extern Call_cudaStreamCreate (cudaStreamCreate_ret e)) ;;
      do _ <- NCCLCHECK 165
         (extern (Call_ncclCommInitRank nRanks myRank) (ncclCommInitRank_ret e)) ;;
      let nccl_comm := {| nccl_comm_ := comm_out e |} in
      do _ <- extern Call_thread_start tt ;;
      ret (myRank, nccl_comm)) w1)))
  = List.filter is_cudaSetDevice (calls w1).
Proof.
  unfold bind. rewrite !CUDACHECK_eq. unfold extern.
  destruct (cudaMalloc_sendbuff_ret e =? cudaSuccess);
    [|simpl; rewrite List.filter_app; simpl; apply app_nil_r].
  rewrite !CUDACHECK_eq.
  destruct (cudaMalloc_recvbuff_ret e =? cudaSuccess);
    [|simpl; rewrite !List.filter_app; simpl; now rewrite !app_nil_r].
  rewrite !CUDACHECK_eq.
  destruct (cudaStreamCreate_ret e =? cudaSuccess);
    [|simpl; rewrite !List.filter_app; simpl; now rewrite !app_nil_r].
  rewrite !NCCLCHECK_eq.
  destruct (ncclCommInitRank_ret e =? ncclSuccess);
    simpl; rewrite !List.filter_app; simpl; now rewrite !app_nil_r.
Qed.

(** C5. When MPI starts up and gathers without error and [gethostname] has
    left a terminated name in the buffer, the device that [main] passes to
    [cudaSetDevice] is the number of ranks below its own whose host hash
    equals its own host hash, every hash being [getHostHash] of the host
    name cut at its first dot; and [main] selects no other device. *)
Theorem localRank_counts_same_host_ranks_before (e : boot) (w : world)
    (hosts : list (list Z)) (own : list Z) :
  let myRank := myRank_out e in
  let nRanks := nRanks_out e in
  let filled := gethostname e (uninitialized (hostname_junk e) 1024) 1024 in
  MPI_Init_ret e = MPI_SUCCESS ->
  MPI_Comm_rank_ret e = MPI_SUCCESS ->
  MPI_Comm_size_ret e = MPI_SUCCESS ->
  (forall a, fst (MPI_Allgather e a) = MPI_SUCCESS) ->
  MPI_Bcast_ret e = MPI_SUCCESS ->
  MPI_Finalize_ret e = MPI_SUCCESS ->
  0 <= myRank < nRanks ->
  Z.of_nat (length filled) = 1024 ->
  In NUL filled ->
  own = upto NUL filled ->
  hosts !! Z.to_nat myRank = Some own ->
  (forall a h, a !! Z.to_nat myRank = Some h -> host_hash own = Some h ->
     Some <$> snd (MPI_Allgather e a) = host_hash <$> hosts) ->
  List.filter is_cudaSetDevice (calls (state_of (main_boot e w)))
  = List.filter is_cudaSetDevice (calls w)
    ++ [Call_cudaSetDevice
          (Z.of_nat (length (List.filter
             (fun name => bool_decide (host_hash name = host_hash own))
             (take (Z.to_nat myRank) hosts))))].
Proof.
  intros myRank nRanks filled Hinit Hrank Hsize Hgather Hbcast Hfin Hr Hlen Hnul
    Hown Hhosts Hall.
  destruct (getHostName_then_hash (gethostname e) (uninitialized (hostname_junk e) 1024)
              1024 (record Call_MPI_Comm_size (record Call_MPI_Comm_rank
                (record Call_MPI_Init
                   (World (out w) (calls w ++ [Call_signal SIGTERM]) SIG_handler)))))
    as (buf & h & Hname & Hhash & Hspec); [exact Hlen | exact Hnul |].
  fold filled in Hspec. rewrite <- Hown in Hspec.
  set (junk := uninitialized (hostHashs_junk e) nRanks).
  assert (Hjunk : is_Some (at_index junk myRank)).
  { unfold at_index. destruct (Z.ltb_spec myRank 0); [lia|].
    apply lookup_lt_is_Some_2. unfold junk, uninitialized.
    rewrite length_map, length_seq. lia. }
  destruct Hjunk as [old Hold].
  set (hs := snd (MPI_Allgather e (<[Z.to_nat myRank:=h]> junk))).
  assert (Hmap : Some <$> hs = host_hash <$> hosts).
  { apply (Hall _ h); [|exact Hspec]. apply list_lookup_insert_eq.
    unfold junk, uninitialized. rewrite length_map, length_seq. lia. }
  assert (Hhm : hs !! Z.to_nat myRank = Some h).
  { assert (E : (Some <$> hs) !! Z.to_nat myRank = Some (Some h)).
    { rewrite Hmap, list_lookup_fmap, Hhosts. simpl. now rewrite Hspec. }
    rewrite list_lookup_fmap in E. destruct (hs !! Z.to_nat myRank); simpl in E; congruence. }
  assert (Hloop : localRank_loop hs myRank 0 (Z.to_nat nRanks) 0
                  = Some (Z.of_nat (length (List.filter
                       (fun name => bool_decide (host_hash name = host_hash own))
                       (take (Z.to_nat myRank) hosts))))).
  { replace myRank with (Z.of_nat (Z.to_nat myRank)) at 1 by lia.
    change 0 with (Z.of_nat 0) at 1.
    rewrite (localRank_loop_counts hs (Z.to_nat myRank) h) by (assumption || lia).
    rewrite drop_0, (count_by_host hs hosts h) by assumption. rewrite Hspec. reflexivity. }
  unfold main_boot. cbv zeta. fold myRank nRanks junk.
  rewrite (bind_Ret _ _ w tt (World (out w) (calls w ++ [Call_signal SIGTERM]) SIG_handler))
    by reflexivity.
  erewrite bind_Ret by (apply MPICHECK_ok; assumption).
  erewrite bind_Ret by (apply MPICHECK_ok; assumption).
  erewrite bind_Ret by (apply MPICHECK_ok; assumption).
  erewrite bind_Ret by exact Hname.
  rewrite Hhash. erewrite bind_Ret by reflexivity.
  unfold store. rewrite Hold. erewrite bind_Ret by reflexivity.
  erewrite bind_Ret by (apply MPICHECK_ok; apply Hgather).
  fold hs. rewrite Hloop. erewrite bind_Ret by reflexivity.
  assert (Hcalls : forall c w1, is_cudaSetDevice c = false ->
            List.filter is_cudaSetDevice (calls (record c w1))
            = List.filter is_cudaSetDevice (calls w1)).
  { intros c w1 Hc. simpl. rewrite List.filter_app. simpl. rewrite Hc. apply app_nil_r. }
  destruct (myRank =? 0).
  - erewrite bind_Ret by reflexivity.
    erewrite bind_Ret by (apply MPICHECK_ok; assumption).
    erewrite bind_Ret by (apply MPICHECK_ok; assumption).
    rewrite one_cudaSetDevice by (intros w1; apply after_cudaSetDevice).
    rewrite !Hcalls by reflexivity. simpl. rewrite List.filter_app. simpl.
    now rewrite app_nil_r.
  - erewrite bind_Ret by reflexivity.
    erewrite bind_Ret by (apply MPICHECK_ok; assumption).
    erewrite bind_Ret by (apply MPICHECK_ok; assumption).
    rewrite one_cudaSetDevice by (intros w1; apply after_cudaSetDevice).
    rewrite !Hcalls by reflexivity. simpl. rewrite List.filter_app. simpl.
    now rewrite app_nil_r.
Qed.

(** * Further properties *)

(** ** The host hash *)

Lemma lxor_range64 a b :
  0 <= a < 2 ^ 64 -> 0 <= b < 2 ^ 64 -> 0 <= Z.lxor a b < 2 ^ 64.
Proof.
  intros Ha Hb. assert (H0 : 0 <= Z.lxor a b) by (apply Z.lxor_nonneg; lia).
  split; [exact H0|].
  destruct (Z.eq_dec (Z.lxor a b) 0) as [->|Hne]; [lia|].
  apply Z.log2_lt_pow2; [lia|].
  pose proof (Z.log2_lxor a b ltac:(lia) ltac:(lia)) as Hl.
  assert (La : Z.log2 a < 64).
  { destruct (Z.eq_dec a 0) as [->|]; [simpl; lia | apply Z.log2_lt_pow2; lia]. }
  assert (Lb : Z.log2 b < 64).
  { destruct (Z.eq_dec b 0) as [->|]; [simpl; lia | apply Z.log2_lt_pow2; lia]. }
  lia.
Qed.

Lemma wrap64_range z : 0 <= wrap64 z < 2 ^ 64.
Proof. unfold wrap64. apply Z.mod_pos_bound. lia. Qed.

Lemma hash_from_range s r :
  0 <= r < 2 ^ 64 -> In NUL s ->
  exists h, getHostHash_from s r = Some h /\ 0 <= h < 2 ^ 64.
Proof.
  revert r. induction s as [|ch s IH]; intros r Hr Hin; [easy|]. simpl.
  destruct (Z.eqb_spec ch NUL) as [->|Hne]; [eauto|].
  destruct Hin as [->|Hin]; [easy|].
  apply IH; [|exact Hin]. apply lxor_range64; apply wrap64_range.
Qed.

Lemma hash_from_djb2a s r :
  In NUL s -> getHostHash_from s r = Some (fold_left djb2a_step (upto NUL s) r).
Proof.
  revert r. induction s as [|ch s IH]; intros r Hin; [easy|]. simpl.
  destruct (Z.eqb_spec ch NUL) as [->|Hne]; [reflexivity|].
  destruct Hin as [->|Hin]; [easy|].
  rewrite IH by exact Hin. simpl. now rewrite hash_step_33.
Qed.

(** X1. On a terminated string [getHostHash] returns, and what it returns is
    a 64-bit unsigned value; on the empty string it is the seed 5381. *)
Theorem getHostHash_range (s : list Z) :
  In NUL s ->
  (exists h, getHostHash s = Some h /\ 0 <= h < 2 ^ 64)
  /\ (forall rest, getHostHash (NUL :: rest) = Some 5381).
Proof.
  intros Hin. split; [|reflexivity].
  apply hash_from_range; [lia | exact Hin].
Qed.

(** X2. On an array without a terminator [getHostHash] reads past the end of
    the array: its behaviour is undefined. *)
Theorem getHostHash_unterminated (s : list Z) :
  ~ In NUL s -> getHostHash s = None.
Proof.
  unfold getHostHash. generalize 5381. induction s as [|ch s IH]; intros r Hin.
  - reflexivity.
  - simpl. destruct (Z.eqb_spec ch NUL) as [->|Hne]; [destruct Hin; now left|].
    apply IH. intros H. apply Hin. now right.
Qed.

(** X3. [getHostHash] computes what its comment says: DJB2a, [result * 33 ^
    char] from the seed 5381, over the characters before the terminator and
    over nothing after it. *)
Theorem getHostHash_is_djb2a (s : list Z) :
  In NUL s -> getHostHash s = Some (djb2a (upto NUL s)).
Proof. intros Hin. apply hash_from_djb2a, Hin. Qed.

(** ** The host name *)

Lemma upto_In x l : (length (upto x l) < length l)%nat -> In x l.
Proof.
  induction l as [|ch l IH]; simpl; [lia|].
  destruct (Z.eqb_spec ch x) as [->|Hne]; [now left|].
  simpl. intros H. right. apply IH. lia.
Qed.

Lemma upto_not_In x l : ~ In x (upto x l).
Proof.
  induction l as [|ch l IH]; simpl; [easy|].
  destruct (Z.eqb_spec ch x) as [->|Hne]; [easy|].
  intros [H|H]; [congruence | now apply IH].
Qed.

Lemma scan_rest_length left rest buf :
  scan_rest rest left = Some buf -> length buf = length rest.
Proof.
  revert rest buf. induction left as [|left IH]; intros rest buf H; simpl in H.
  - now injection H as <-.
  - destruct rest as [|ch rest]; [discriminate|]. destruct (ch =? DOT).
    + now injection H as <-.
    + destruct (scan_rest rest left) as [b|] eqn:E; [|discriminate].
      simpl in H. injection H as <-. simpl. f_equal. now apply IH.
Qed.

Lemma scan_rest_overrun left rest :
  (length rest < left)%nat -> ~ In DOT rest -> scan_rest rest left = None.
Proof.
  revert rest. induction left as [|left IH]; intros rest Hlen Hno; [lia|].
  simpl. destruct rest as [|ch rest]; [reflexivity|].
  destruct (Z.eqb_spec ch DOT) as [->|Hne]; [destruct Hno; now left|].
  rewrite IH; [reflexivity | simpl in Hlen; lia |].
  intros H. apply Hno. now right.
Qed.

(** X4. When the name that [gethostname] wrote ends within the first
    [maxlen] characters of a buffer at least that long, [getHostName]
    returns a buffer of the same length that is still terminated and whose
    string is the name up to its first dot: the string has no dot left. *)
Theorem getHostName_leaves_short_name (gh : list Z -> Z -> list Z)
    (hostname : list Z) (maxlen : Z) (w : world) :
  let filled := gh hostname maxlen in
  (Z.to_nat maxlen <= length filled)%nat ->
  (length (upto NUL filled) < Z.to_nat maxlen)%nat ->
  exists buf,
    getHostName gh hostname maxlen w = Ret buf (record (Call_gethostname maxlen) w)
    /\ length buf = length filled
    /\ In NUL buf
    /\ upto NUL buf = upto DOT (upto NUL filled)
    /\ ~ In DOT (upto NUL buf).
Proof.
  intros filled Hlen Hterm. rewrite getHostName_eq. fold filled.
  pose proof (scan_as_rest (Z.to_nat maxlen) [] filled) as E. simpl in E. rewrite E.
  destruct (scan_rest_total (Z.to_nat maxlen) filled Hlen) as [buf Hbuf].
  rewrite Hbuf. simpl. exists buf.
  assert (Hc : upto NUL buf = upto DOT (upto NUL filled))
    by (eapply scan_rest_cstring; eassumption).
  split; [reflexivity|]. split; [eapply scan_rest_length; eassumption|].
  split; [|split; [exact Hc|]].
  - eapply scan_rest_keeps_NUL; [eassumption|]. apply upto_In. lia.
  - rewrite Hc. apply upto_not_In.
Qed.

(** X5. When the buffer is shorter than [maxlen] and holds no dot, the loop
    of [getHostName] runs past the end of the buffer: the behaviour is
    undefined, whether the name is terminated or not. *)
Theorem getHostName_reads_past_short_buffer (gh : list Z -> Z -> list Z)
    (hostname : list Z) (maxlen : Z) (w : world) :
  let filled := gh hostname maxlen in
  (length filled < Z.to_nat maxlen)%nat ->
  ~ In DOT filled ->
  getHostName gh hostname maxlen w = Undefined (record (Call_gethostname maxlen) w).
Proof.
  intros filled Hlen Hno. rewrite getHostName_eq. fold filled.
  pose proof (scan_as_rest (Z.to_nat maxlen) [] filled) as E. simpl in E.
  now rewrite E, scan_rest_overrun.
Qed.

(** X6. Two hosts whose names agree up to the first dot get the same hash:
    after [getHostName], [getHostHash] returns the same value on both
    buffers, whatever follows the dot or the terminator. *)
Theorem same_short_name_same_hash (gh1 gh2 : list Z -> Z -> list Z)
    (hostname1 hostname2 : list Z) (maxlen : Z) (w1 w2 : world) :
  let filled1 := gh1 hostname1 maxlen in
  let filled2 := gh2 hostname2 maxlen in
  Z.of_nat (length filled1) = maxlen ->
  Z.of_nat (length filled2) = maxlen ->
  In NUL filled1 -> In NUL filled2 ->
  upto DOT (upto NUL filled1) = upto DOT (upto NUL filled2) ->
  exists buf1 buf2 h,
    getHostName gh1 hostname1 maxlen w1 = Ret buf1 (record (Call_gethostname maxlen) w1)
    /\ getHostName gh2 hostname2 maxlen w2 = Ret buf2 (record (Call_gethostname maxlen) w2)
    /\ getHostHash buf1 = Some h
    /\ getHostHash buf2 = Some h.
Proof.
  intros filled1 filled2 L1 L2 N1 N2 Hsame.
  destruct (getHostName_then_hash gh1 hostname1 maxlen w1 L1 N1)
    as (buf1 & h1 & E1 & H1 & S1).
  destruct (getHostName_then_hash gh2 hostname2 maxlen w2 L2 N2)
    as (buf2 & h2 & E2 & H2 & S2).
  exists buf1, buf2, h1. repeat split; try assumption.
  rewrite H2. unfold host_hash in S1, S2. fold filled1 in S1. fold filled2 in S2.
  rewrite Hsame in S1. congruence.
Qed.

(** ** The local rank *)

Lemma filter_none {A} (f : A -> bool) (l : list A) :
  (forall x, In x l -> f x = false) -> List.filter f l = [].
Proof.
  induction l as [|a l IH]; intros H; [reflexivity|]. simpl.
  rewrite (H a) by now left. apply IH. intros x Hx. apply H. now right.
Qed.

Lemma localRank_loop_value (hostHashs : list Z) (myRank : Z) (nRanks : nat) (hm : Z) :
  0 <= myRank < Z.of_nat nRanks ->
  at_index hostHashs myRank = Some hm ->
  localRank_loop hostHashs myRank 0 nRanks 0
  = Some (Z.of_nat (length (List.filter (fun a => a =? hm)
                              (take (Z.to_nat myRank) hostHashs)))).
Proof.
  intros Hr Hm. replace myRank with (Z.of_nat (Z.to_nat myRank)) in Hm |- * by lia.
  rewrite at_index_nat in Hm. rewrite Nat2Z.id. change 0 with (Z.of_nat 0) at 1.
  rewrite (localRank_loop_counts hostHashs (Z.to_nat myRank) hm) by (assumption || lia).
  now rewrite drop_0.
Qed.

(** X7. For a rank inside the gathered array the loop of [main] yields a
    local rank between 0 and the rank itself; it is 0 for rank 0, and for
    every rank before which no entry of the array equals its own. *)
Theorem localRank_loop_bounds (hostHashs : list Z) (myRank : Z) (nRanks : nat)
    (hm : Z) :
  0 <= myRank < Z.of_nat nRanks ->
  at_index hostHashs myRank = Some hm ->
  exists r,
    localRank_loop hostHashs myRank 0 nRanks 0 = Some r
    /\ 0 <= r <= myRank
    /\ (myRank = 0 -> r = 0)
    /\ ((forall p, 0 <= p < myRank -> at_index hostHashs p <> Some hm) -> r = 0).
Proof.
  intros Hr Hm. rewrite (localRank_loop_value _ _ _ hm Hr Hm). eexists.
  split; [reflexivity|].
  pose proof (List.filter_length_le (fun a => a =? hm) (take (Z.to_nat myRank) hostHashs)).
  pose proof (length_take_le hostHashs (Z.to_nat myRank)) as Ht.
  assert (Hlen : (length (take (Z.to_nat myRank) hostHashs) <= Z.to_nat myRank)%nat).
  { rewrite length_take. lia. }
  split; [lia|]. split.
  - intros ->. reflexivity.
  - intros Hno. rewrite filter_none; [reflexivity|].
    intros x Hx. apply list_elem_of_In, list_elem_of_lookup in Hx as [p Hp].
    rewrite lookup_take in Hp. destruct (decide (p < Z.to_nat myRank)%nat); [|discriminate].
    apply Z.eqb_neq. intros ->. apply (Hno (Z.of_nat p)); [lia|].
    now rewrite at_index_nat.
Qed.

(** X8. Two ranks whose entries in the gathered array are equal get
    different local ranks, the later rank the larger one: ranks that count
    as being on one host never select the same device. *)
Theorem localRank_loop_separates (hostHashs : list Z) (m1 m2 : Z) (nRanks : nat)
    (h : Z) :
  0 <= m1 < m2 -> m2 < Z.of_nat nRanks ->
  at_index hostHashs m1 = Some h ->
  at_index hostHashs m2 = Some h ->
  exists r1 r2,
    localRank_loop hostHashs m1 0 nRanks 0 = Some r1
    /\ localRank_loop hostHashs m2 0 nRanks 0 = Some r2
    /\ r1 < r2.
Proof.
  intros H12 Hn H1 H2.
  rewrite (localRank_loop_value _ m1 _ h) by (assumption || lia).
  rewrite (localRank_loop_value _ m2 _ h) by (assumption || lia).
  eexists _, _. split; [reflexivity|]. split; [reflexivity|].
  replace m1 with (Z.of_nat (Z.to_nat m1)) in H1 by lia. rewrite at_index_nat in H1.
  rewrite <- (take_drop (Z.to_nat m1) (take (Z.to_nat m2) hostHashs)).
  rewrite take_take, Nat.min_l by lia.
  rewrite (drop_S (take (Z.to_nat m2) hostHashs) h (Z.to_nat m1)).
  2:{ rewrite lookup_take. destruct (decide (Z.to_nat m1 < Z.to_nat m2)%nat); [assumption | lia]. }
  rewrite List.filter_app, length_app. simpl. rewrite Z.eqb_refl. simpl. lia.
Qed.

(** ** Runs of the process *)

Lemma observes_faultb_spec t : observes_faultb t = true <-> observes_fault t.
Proof.
  unfold observes_faultb, observes_fault.
  destruct (Z.eqb_spec (query_ret t) ncclSuccess),
    (Z.eqb_spec (async_result t) ncclSuccess); simpl; split; intros H;
    try discriminate; try (split; assumption); destruct H; congruence.
Qed.

Lemma step_survives c w ev :
  ends_process ev = false ->
  exists w', step (Alive c w) ev = Alive c w'
    /\ aborts w' = (aborts w + (if finds_fault ev then 1 else 0))%nat.
Proof.
  destruct ev as [r|t|]; simpl; intros H; [| |discriminate].
  - rewrite allreduce_once_eq. cbv zeta. apply negb_false_iff in H. rewrite H.
    eexists. split; [reflexivity|].
    rewrite !aborts_record. simpl. lia.
  - pose proof (check_once_aborts t c w) as Ha. fold (observes_faultb t) in Ha.
    rewrite check_once_eq, CheckNCCLError_eq in Ha |- *. cbv zeta in Ha |- *.
    unfold check_call_failsb, observes_faultb in H.
    destruct (query_ret t =? ncclSuccess); [|discriminate].
    destruct (async_result t =? ncclSuccess); simpl in H |- *.
    + eexists. split; [reflexivity | exact Ha].
    + destruct (abort_ret t =? ncclSuccess); [|discriminate].
      eexists. split; [reflexivity | exact Ha].
Qed.

Lemma step_ends c w ev :
  ends_process ev = true -> is_alive (step (Alive c w) ev) = false.
Proof.
  destruct ev as [r|t|]; simpl; intros H.
  - rewrite allreduce_once_eq. cbv zeta. apply negb_true_iff in H. now rewrite H.
  - rewrite check_once_eq, CheckNCCLError_eq. cbv zeta.
    unfold check_call_failsb, observes_faultb in H.
    destruct (query_ret t =? ncclSuccess); [|reflexivity].
    destruct (async_result t =? ncclSuccess); simpl in H; [discriminate|].
    destruct (abort_ret t =? ncclSuccess); [discriminate | reflexivity].
  - unfold deliver. now destruct (sigterm w).
Qed.

Lemma run_not_alive p evs : is_alive p = false -> is_alive (run p evs) = false.
Proof.
  intros H. rewrite run_dead; [exact H|]. intros c w ->. discriminate.
Qed.

(** X9. The process is still running after a sequence of events exactly
    when no event of the sequence is a failure reported to one of the
    NCCLCHECKs of the two loops or a SIGTERM. *)
Theorem process_survives_iff (c : NCCLComm) (w : world) (evs : list event) :
  is_alive (run (Alive c w) evs) = forallb (fun ev => negb (ends_process ev)) evs.
Proof.
  revert w. induction evs as [|ev evs IH]; intros w; [reflexivity|].
  change (run (Alive c w) (ev :: evs)) with (run (step (Alive c w) ev) evs).
  cbn [forallb]. destruct (ends_process ev) eqn:E; cbn [negb andb].
  - apply run_not_alive, step_ends, E.
  - destruct (step_survives c w ev E) as (w' & -> & _). apply IH.
Qed.

(** X10. Along a run that the process survives, [ncclCommAbort] is called
    once for each check that observes a fault, and by nothing else: the
    number of aborts grows by the number of such checks. *)
Theorem aborts_count_observed_faults (c : NCCLComm) (w : world) (evs : list event) :
  forallb (fun ev => negb (ends_process ev)) evs = true ->
  exists w',
    run (Alive c w) evs = Alive c w'
    /\ aborts w' = (aborts w + length (List.filter finds_fault evs))%nat.
Proof.
  revert w. induction evs as [|ev evs IH]; intros w H.
  - exists w. split; [reflexivity | simpl; lia].
  - change (run (Alive c w) (ev :: evs)) with (run (step (Alive c w) ev) evs).
    cbn [forallb] in H. apply andb_true_iff in H as [Hev Hevs].
    apply negb_true_iff in Hev.
    destruct (step_survives c w ev Hev) as (w1 & -> & Ha).
    destruct (IH w1 Hevs) as (w' & -> & Ha').
    exists w'. split; [reflexivity|]. rewrite Ha', Ha. simpl.
    destruct (finds_fault ev); simpl; lia.
Qed.

Lemma targets_step comm w ev :
  Forall (fun cl => targets comm cl = true) (calls w) ->
  Forall (fun cl => targets comm cl = true)
    (calls (world_of (step (Alive {| nccl_comm_ := comm |} w) ev))).
Proof.
  intros H. destruct ev as [r|t|]; simpl.
  - rewrite world_of_settle, allreduce_once_eq. cbv zeta.
    destruct (r =? ncclSuccess); simpl; repeat (apply Forall_app; split);
      try assumption; repeat constructor; simpl; now rewrite !Z.eqb_refl.
  - rewrite world_of_settle, check_once_eq, CheckNCCLError_eq. cbv zeta.
    destruct (query_ret t =? ncclSuccess), (async_result t =? ncclSuccess),
      (abort_ret t =? ncclSuccess); simpl; repeat (apply Forall_app; split);
      try assumption; repeat constructor; simpl; now rewrite ?Z.eqb_refl.
  - unfold deliver. destruct (sigterm w); simpl; assumption.
Qed.

(** X11. Every call that the two loops make into NCCL, before or after an
    abort, names the communicator the handle was constructed with, and
    every collective is over [size] elements. *)
Theorem run_calls_target_comm (comm : ncclComm_t) (w : world) (evs : list event) :
  Forall (fun cl => targets comm cl = true) (calls w) ->
  Forall (fun cl => targets comm cl = true)
    (calls (world_of (run (Alive {| nccl_comm_ := comm |} w) evs))).
Proof.
  revert w. induction evs as [|ev evs IH]; intros w H; [exact H|].
  change (run (Alive {| nccl_comm_ := comm |} w) (ev :: evs))
    with (run (step (Alive {| nccl_comm_ := comm |} w) ev) evs).
  pose proof (targets_step comm w ev H) as Hs.
  destruct (step (Alive {| nccl_comm_ := comm |} w) ev) as [c1 w1| | |] eqn:E.
  - pose proof (step_keeps_comm _ _ _ _ _ E) as ->. apply IH, Hs.
  - now rewrite run_dead.
  - now rewrite run_dead.
  - now rewrite run_dead.
Qed.

(** ** What [main] prints *)

Lemma one_line_MPI_failed line e : one_line (MPI_failed line e).
Proof.
  exists ("Failed: MPI error " +:+ FILE +:+ ":" +:+ dec line +:+ " '" +:+ dec e +:+ "'").
  unfold MPI_failed. now rewrite !append_assoc.
Qed.

Lemma one_line_Cuda_failed line e : one_line (Cuda_failed line e).
Proof.
  exists ("Failed: Cuda error " +:+ FILE +:+ ":" +:+ dec line +:+ " '"
          +:+ cudaGetErrorString e +:+ "'").
  unfold Cuda_failed. now rewrite !append_assoc.
Qed.

Lemma one_line_NCCL_failed line r : one_line (NCCL_failed line r).
Proof.
  exists ("Failed, NCCL error " +:+ FILE +:+ ":" +:+ dec line +:+ " '"
          +:+ ncclGetErrorString r +:+ "'").
  unfold NCCL_failed. now rewrite !append_assoc.
Qed.

Lemma sof_ret {A} (a : A) : silent_or_fatal (ret a).
Proof. now intros w. Qed.

Lemma sof_undefined {A} : silent_or_fatal (@undefined A).
Proof. now intros w. Qed.

Lemma sof_extern {A} c (r : A) : silent_or_fatal (extern c r).
Proof. now intros w. Qed.

Lemma sof_of_option {A} (o : option A) : silent_or_fatal (of_option o).
Proof. now destruct o; intros w. Qed.

Lemma sof_store a i v : silent_or_fatal (store a i v).
Proof. unfold store. destruct (at_index a i); now intros w. Qed.

Lemma sof_signal : silent_or_fatal signal_SIGTERM_handler.
Proof. now intros w. Qed.

Lemma sof_if {A} (b : bool) (m1 m2 : M A) :
  silent_or_fatal m1 -> silent_or_fatal m2 -> silent_or_fatal (if b then m1 else m2).
Proof. now destruct b. Qed.

Lemma sof_bind {A B} (m : M A) (k : A -> M B) :
  silent_or_fatal m -> (forall a, silent_or_fatal (k a)) -> silent_or_fatal (bind m k).
Proof.
  intros Hm Hk w. unfold bind. specialize (Hm w).
  destruct (m w) as [a w1| |]; try assumption.
  specialize (Hk a w1). destruct (k a w1); now rewrite <- Hm.
Qed.

Lemma sof_fail {A} (msg : string) :
  one_line msg -> silent_or_fatal (do _ <- printf msg ;; @exit A EXIT_FAILURE).
Proof. intros H w. split; [reflexivity|]. now exists msg. Qed.

Lemma sof_MPICHECK line cmd : silent_or_fatal cmd -> silent_or_fatal (MPICHECK line cmd).
Proof.
  intros H. unfold MPICHECK. apply sof_bind; [exact H|]. intros e.
  apply sof_if; [apply sof_fail, one_line_MPI_failed | apply sof_ret].
Qed.

Lemma sof_CUDACHECK line cmd : silent_or_fatal cmd -> silent_or_fatal (CUDACHECK line cmd).
Proof.
  intros H. unfold CUDACHECK. apply sof_bind; [exact H|]. intros e.
  apply sof_if; [apply sof_fail, one_line_Cuda_failed | apply sof_ret].
Qed.

Lemma sof_NCCLCHECK line cmd : silent_or_fatal cmd -> silent_or_fatal (NCCLCHECK line cmd).
Proof.
  intros H. unfold NCCLCHECK. apply sof_bind; [exact H|]. intros e.
  apply sof_if; [apply sof_fail, one_line_NCCL_failed | apply sof_ret].
Qed.

Create HintDb silent.
#[local] Hint Resolve sof_ret sof_undefined sof_extern sof_of_option sof_store
  sof_signal sof_if sof_MPICHECK sof_CUDACHECK sof_NCCLCHECK : silent.
#[local] Hint Extern 1 (silent_or_fatal (bind _ _)) =>
  apply sof_bind; [|intros ?] : silent.





(** ** The calls of [main] *)

Lemma aam_le {A} P k k' (m : M A) :
  (k <= k')%nat -> adds_at_most P k m -> adds_at_most P k' m.
Proof. intros Hk H w. specialize (H w). lia. Qed.

Lemma aam_ret {A} P (a : A) : adds_at_most P 0 (ret a).
Proof. intros w. simpl. lia. Qed.

Lemma aam_undefined {A} P : adds_at_most P 0 (@undefined A).
Proof. intros w. simpl. lia. Qed.

Lemma aam_exit {A} P code : adds_at_most P 0 (@exit A code).
Proof. intros w. simpl. lia. Qed.

Lemma aam_printf P s : adds_at_most P 0 (printf s).
Proof. intros w. simpl. lia. Qed.

Lemma aam_of_option {A} P (o : option A) : adds_at_most P 0 (of_option o).
Proof. destruct o; intros w; simpl; lia. Qed.

Lemma aam_store P a i v : adds_at_most P 0 (store a i v).
Proof. unfold store. destruct (at_index a i); intros w; simpl; lia. Qed.

Lemma aam_extern {A} P c (r : A) :
  adds_at_most P (if P c then 1 else 0) (extern c r).
Proof.
  intros w. simpl. rewrite List.filter_app, length_app. simpl.
  destruct (P c); simpl; lia.
Qed.

Lemma aam_extern_0 {A} P c (r : A) : P c = false -> adds_at_most P 0 (extern c r).
Proof. intros H. pose proof (@aam_extern A P c r) as E. now rewrite H in E. Qed.

Lemma aam_bind {A B} P k1 k2 (m : M A) (f : A -> M B) :
  adds_at_most P k1 m -> (forall a, adds_at_most P k2 (f a)) ->
  adds_at_most P (k1 + k2) (bind m f).
Proof.
  intros Hm Hf w. unfold bind. specialize (Hm w).
  destruct (m w) as [a w1| |]; simpl in *; try lia.
  specialize (Hf a w1). lia.
Qed.

Lemma aam_bind_0 {A B} P (m : M A) (f : A -> M B) :
  adds_at_most P 0 m -> (forall a, adds_at_most P 0 (f a)) ->
  adds_at_most P 0 (bind m f).
Proof. apply (aam_bind P 0 0). Qed.

Lemma aam_if {A} P k (b : bool) (m1 m2 : M A) :
  adds_at_most P k m1 -> adds_at_most P k m2 -> adds_at_most P k (if b then m1 else m2).
Proof. now destruct b. Qed.

Create HintDb trace.
#[local] Hint Resolve aam_ret aam_undefined aam_exit aam_printf aam_of_option
  aam_store aam_if : trace.
#[local] Hint Extern 1 (adds_at_most _ 0 (bind _ _)) =>
  apply aam_bind_0; [|intros ?] : trace.
#[local] Hint Extern 1 (adds_at_most _ 0 (extern _ _)) =>
  apply aam_extern_0; reflexivity : trace.
#[local] Hint Extern 1 (adds_at_most _ 0 exit) => apply aam_exit : trace.

Lemma aam_MPICHECK P line cmd :
  adds_at_most P 0 cmd -> adds_at_most P 0 (MPICHECK line cmd).
Proof. intros H. unfold MPICHECK. auto 10 with trace. Qed.

Lemma aam_CUDACHECK P line cmd :
  adds_at_most P 0 cmd -> adds_at_most P 0 (CUDACHECK line cmd).
Proof. intros H. unfold CUDACHECK. auto 10 with trace. Qed.

Lemma aam_NCCLCHECK P line cmd :
  adds_at_most P 0 cmd -> adds_at_most P 0 (NCCLCHECK line cmd).
Proof. intros H. unfold NCCLCHECK. auto 10 with trace. Qed.

#[local] Hint Resolve aam_MPICHECK aam_CUDACHECK aam_NCCLCHECK : trace.

Lemma aam_while {S} P (body : nat -> S -> M S) fuel i s :
  (forall j s1, adds_at_most P 0 (body j s1)) ->
  adds_at_most P 0 (while (fun _ => true) body fuel i s).
Proof.
  intros Hb. revert i s. induction fuel as [|fuel IH]; intros i s; simpl.
  - apply aam_ret.
  - apply aam_bind_0; [apply Hb | intros s1; apply IH].
Qed.

(** X13. Only rank 0 makes the unique id: a process whose rank is not 0
    never calls [ncclGetUniqueId], and rank 0 calls it at most once,
    whatever the environment answers and however long [main] runs. *)
Theorem only_rank_0_makes_unique_id (e : boot) (allreduce : nat -> ncclResult_t)
    (fuel : nat) (w : world) :
  (length (List.filter is_unique_id (calls (state_of (main e allreduce fuel w))))
   <= length (List.filter is_unique_id (calls w))
      + (if (myRank_out e =? 0)%Z then 1 else 0))%nat.
Proof.
  revert w. change (adds_at_most is_unique_id (if (myRank_out e =? 0)%Z then 1%nat else 0%nat)
                      (main e allreduce fuel)).
  replace (if (myRank_out e =? 0)%Z then 1%nat else 0%nat)
    with ((if (myRank_out e =? 0)%Z then 1 else 0) + 0)%nat by lia.
  unfold main. apply aam_bind.
  - unfold main_boot, getHostName. cbv zeta.
    repeat (apply (aam_bind is_unique_id 0);
            [solve [unfold signal_SIGTERM_handler; auto 10 with trace
                   | intros w; simpl; rewrite List.filter_app, length_app; simpl; lia]
            | intros ?]).
    replace (if (myRank_out e =? 0)%Z then 1%nat else 0%nat)
      with ((if (myRank_out e =? 0)%Z then 1 else 0) + 0)%nat by lia.
    apply aam_bind.
    + destruct (myRank_out e =? 0); [apply (@aam_extern unit is_unique_id) | apply aam_ret].
    + intros _. auto 40 with trace.
  - intros b. unfold main_loop. apply aam_bind_0.
    + apply aam_while. intros j s1. unfold allreduce_once, GetNCCLComm.
      auto 20 with trace.
    + intros [s1|s1]; auto 20 with trace.
Qed.

Lemma record_World c o cs s : record c (World o cs s) = World o (cs ++ [c]) s.
Proof. reflexivity. Qed.

Lemma CUDACHECK_ok line c e w :
  e = cudaSuccess -> CUDACHECK line (extern c e) w = Ret tt (record c w).
Proof. intros ->. reflexivity. Qed.

Lemma NCCLCHECK_ok line c r w :
  r = ncclSuccess -> NCCLCHECK line (extern c r) w = Ret tt (record c w).
Proof. intros ->. reflexivity. Qed.

(** X14. When every call of the start-up succeeds, the host name is
    terminated in its buffer and the gathered array has an entry for each
    rank, [main] reaches its loop having printed nothing and having made
    exactly these calls in this order: the handler, the three MPI queries,
    [gethostname] on 1024 bytes, the gather, the unique id on rank 0 only,
    the broadcast, [MPI_Finalize], and only then the device, two buffers of
    [size * 4] = 134217728 bytes, the stream, the communicator and the
    watchdog thread. The handle wraps the communicator that
    [ncclCommInitRank] produced, and the device is between 0 and the rank. *)
Theorem main_boot_success (e : boot) (w : world) :
  let myRank := myRank_out e in
  let nRanks := nRanks_out e in
  let filled := gethostname e (uninitialized (hostname_junk e) 1024) 1024 in
  MPI_Init_ret e = MPI_SUCCESS ->
  MPI_Comm_rank_ret e = MPI_SUCCESS ->
  MPI_Comm_size_ret e = MPI_SUCCESS ->
  (forall a, fst (MPI_Allgather e a) = MPI_SUCCESS) ->
  MPI_Bcast_ret e = MPI_SUCCESS ->
  MPI_Finalize_ret e = MPI_SUCCESS ->
  cudaSetDevice_ret e = cudaSuccess ->
  cudaMalloc_sendbuff_ret e = cudaSuccess ->
  cudaMalloc_recvbuff_ret e = cudaSuccess ->
  cudaStreamCreate_ret e = cudaSuccess ->
  ncclCommInitRank_ret e = ncclSuccess ->
  0 <= myRank < nRanks ->
  Z.of_nat (length filled) = 1024 ->
  In NUL filled ->
  (forall a, length (snd (MPI_Allgather e a)) = Z.to_nat nRanks) ->
  exists localRank,
    0 <= localRank <= myRank
    /\ main_boot e w
       = Ret (myRank, {| nccl_comm_ := comm_out e |})
           (World (out w)
              (calls w
               ++ [Call_signal SIGTERM; Call_MPI_Init; Call_MPI_Comm_rank;
                   Call_MPI_Comm_size; Call_gethostname 1024; Call_MPI_Allgather]
               ++ (if myRank =? 0 then [Call_ncclGetUniqueId] else [])
               ++ [Call_MPI_Bcast; Call_MPI_Finalize; Call_cudaSetDevice localRank;
                   Call_cudaMalloc 134217728; Call_cudaMalloc 134217728;
                   Call_cudaStreamCreate; Call_ncclCommInitRank nRanks myRank;
                   Call_thread_start])
              SIG_handler).
Proof.
  intros myRank nRanks filled Hinit Hrank Hsize Hgather Hbcast Hfin Hdev Hsend Hrecv
    Hstream Hcomm Hr Hlen Hnul Hall.
  destruct (getHostName_then_hash (gethostname e) (uninitialized (hostname_junk e) 1024)
              1024 (record Call_MPI_Comm_size (record Call_MPI_Comm_rank
                (record Call_MPI_Init
                   (World (out w) (calls w ++ [Call_signal SIGTERM]) SIG_handler)))))
    as (buf & h & Hname & Hhash & _); [exact Hlen | exact Hnul |].
  set (junk := uninitialized (hostHashs_junk e) nRanks).
  assert (Hjunk : is_Some (at_index junk myRank)).
  { unfold at_index. destruct (Z.ltb_spec myRank 0); [lia|].
    apply lookup_lt_is_Some_2. unfold junk, uninitialized.
    rewrite length_map, length_seq. lia. }
  destruct Hjunk as [old Hold].
  set (hs := snd (MPI_Allgather e (<[Z.to_nat myRank:=h]> junk))).
  assert (Hhm : is_Some (at_index hs myRank)).
  { unfold at_index. destruct (Z.ltb_spec myRank 0); [lia|].
    apply lookup_lt_is_Some_2. unfold hs. rewrite Hall. lia. }
  destruct Hhm as [hm Hhm].
  pose proof (localRank_loop_value hs myRank (Z.to_nat nRanks) hm ltac:(lia) Hhm)
    as Hloop.
  exists (Z.of_nat (length (List.filter (fun a => a =? hm)
                              (take (Z.to_nat myRank) hs)))).
  split.
  { pose proof (List.filter_length_le (fun a => a =? hm) (take (Z.to_nat myRank) hs)).
    assert ((length (take (Z.to_nat myRank) hs) <= Z.to_nat myRank)%nat)
      by (rewrite length_take; lia).
    split; [apply Nat2Z.is_nonneg | lia]. }
  unfold main_boot. cbv zeta. fold myRank nRanks junk.
  rewrite (bind_Ret _ _ w tt (World (out w) (calls w ++ [Call_signal SIGTERM]) SIG_handler))
    by reflexivity.
  erewrite bind_Ret by (apply MPICHECK_ok; assumption).
  erewrite bind_Ret by (apply MPICHECK_ok; assumption).
  erewrite bind_Ret by (apply MPICHECK_ok; assumption).
  erewrite bind_Ret by exact Hname.
  rewrite Hhash. erewrite bind_Ret by reflexivity.
  unfold store. rewrite Hold. erewrite bind_Ret by reflexivity.
  erewrite bind_Ret by (apply MPICHECK_ok; apply Hgather).
  fold hs. rewrite Hloop. erewrite bind_Ret by reflexivity.
  destruct (myRank =? 0).
  - erewrite bind_Ret by reflexivity.
    erewrite bind_Ret by (apply MPICHECK_ok; assumption).
    erewrite bind_Ret by (apply MPICHECK_ok; assumption).
    erewrite bind_Ret by (apply CUDACHECK_ok; assumption).
    erewrite bind_Ret by (apply CUDACHECK_ok; assumption).
    erewrite bind_Ret by (apply CUDACHECK_ok; assumption).
    erewrite bind_Ret by (apply CUDACHECK_ok; assumption).
    erewrite bind_Ret by (apply NCCLCHECK_ok; assumption).
    erewrite bind_Ret by reflexivity.
    unfold ret. rewrite !record_World. f_equal. f_equal.
    now rewrite <- !app_assoc.
  - erewrite bind_Ret by reflexivity.
    erewrite bind_Ret by (apply MPICHECK_ok; assumption).
    erewrite bind_Ret by (apply MPICHECK_ok; assumption).
    erewrite bind_Ret by (apply CUDACHECK_ok; assumption).
    erewrite bind_Ret by (apply CUDACHECK_ok; assumption).
    erewrite bind_Ret by (apply CUDACHECK_ok; assumption).
    erewrite bind_Ret by (apply CUDACHECK_ok; assumption).
    erewrite bind_Ret by (apply NCCLCHECK_ok; assumption).
    erewrite bind_Ret by reflexivity.
    unfold ret. rewrite !record_World. f_equal. f_equal.
    now rewrite <- !app_assoc.
Qed.





End Program.

(** * The properties on the sample process *)

Example sample_hash : host_hash node1_cluster = host_hash node1
  /\ host_hash node1 = Some node1_hash.
Proof. split; reflexivity. Qed.

Example sample_diagnostic :
  NCCL_failed sample_FILE sample_ncclGetErrorString 172 2
  = "Failed, NCCL error test.cc:172 'unhandled system error'" +:+ nl.
Proof. reflexivity. Qed.

(** [main] on the sample process, observed for three turns of its loop: it
    is still in the loop, has selected device 1 and has called
    [ncclAllReduce] three times. *)
Example sample_main :
  exists w,
    main sample_FILE sample_ncclGetErrorString sample_cudaGetErrorString
      sample_boot (fun _ => ncclSuccess) 3 fresh_world = Ret None w
    /\ List.filter is_cudaSetDevice (calls w) = [Call_cudaSetDevice 1]
    /\ length (List.filter is_allreduce (calls w)) = 3%nat
    /\ out w = []
    /\ sigterm w = SIG_handler.
Proof. eexists. split; [vm_compute; reflexivity|]. repeat split. Qed.

(** With a failing third collective the same run ends with status 1. *)
Example sample_main_fails :
  exists w,
    main sample_FILE sample_ncclGetErrorString sample_cudaGetErrorString
      sample_boot (fun i => if (i =? 2)%nat then 2 else ncclSuccess) 5 fresh_world
    = Exit 1 w
    /\ out w = ["Failed, NCCL error test.cc:172 'unhandled system error'" +:+ nl].
Proof. eexists. split; [vm_compute; reflexivity|]. reflexivity. Qed.

(** ** The theorems on the sample process *)

Lemma abort_on_every_observed_fault_sample :
  observes_fault fault_found
  /\ aborts (world_of (step sample_FILE sample_ncclGetErrorString
                         (Alive sample_comm sample_world) (Ev_check fault_found)))
     = 1%nat.
Proof.
  assert (H : observes_fault fault_found) by (split; [reflexivity | discriminate]).
  split; [exact H|].
  exact (proj1 (abort_on_every_observed_fault sample_FILE sample_ncclGetErrorString
                  sample_comm sample_world fault_found H)).
Defined.

(** C1, as stated, fails: the watchdog finds a fault, aborts, and 10 ms
    later finds a fault again. The handle is in the aborted state by then,
    and the second check calls [ncclCommAbort] a second time. *)
Lemma later_fault_aborts_again :
  let p1 := step sample_FILE sample_ncclGetErrorString
              (Alive sample_comm sample_world) (Ev_check fault_found) in
  let p2 := step sample_FILE sample_ncclGetErrorString p1 (Ev_check fault_found) in
  fault_state (world_of p1) = Aborted
  /\ aborts (world_of p1) = 1%nat
  /\ aborts (world_of p2) = 2%nat
  /\ aborts (world_of p2) <> aborts (world_of p1).
Proof.
  cbv zeta. split; [reflexivity|]. split; [reflexivity|]. split; [reflexivity|].
  intros H. vm_compute in H. discriminate H.
Qed.

Lemma fault_is_logged_and_exit_deferred_sample :
  observes_fault fault_found
  /\ abort_ret fault_found = ncclSuccess
  /\ step sample_FILE sample_ncclGetErrorString
       (Alive sample_comm sample_world) (Ev_check fault_found)
     = Alive sample_comm
         (World
            [async_error_line sample_ncclGetErrorString 2; abort_starts;
             abort_finishes 7]
            [Call_thread_start; Call_ncclCommGetAsyncError 4096;
             Call_ncclCommAbort 4096; Call_sleep_for 10]
            SIG_handler).
Proof.
  assert (H : observes_fault fault_found) by (split; [reflexivity | discriminate]).
  split; [exact H|]. split; [reflexivity|].
  exact (proj1 (fault_is_logged_and_exit_deferred sample_FILE sample_ncclGetErrorString
                  fault_found sample_comm sample_world H eq_refl)).
Defined.

(** C2, as stated, fails: the foreground loop completes a collective, then a
    check finds a fault and aborts, its query and its abort succeeding, and
    the query of the next check reports a failure. The process exits with
    status 1 in that check, on the diagnostic of line 66; the only
    [ncclAllReduce] of the run had returned [ncclSuccess]. *)
Lemma later_check_exits_without_collective :
  let p0 := step sample_FILE sample_ncclGetErrorString
              (Alive sample_comm sample_world) (Ev_allreduce ncclSuccess) in
  let p1 := step sample_FILE sample_ncclGetErrorString p0 (Ev_check fault_found) in
  let p2 := step sample_FILE sample_ncclGetErrorString p1 (Ev_check query_broken) in
  observes_fault fault_found
  /\ abort_ret fault_found = ncclSuccess
  /\ p1 = Alive sample_comm (world_of p1)
  /\ p2 = Exited 1 (world_of p2)
  /\ List.filter is_allreduce (calls (world_of p2)) = [Call_ncclAllReduce 4096 size]
  /\ last (out (world_of p2))
     = Some (NCCL_failed sample_FILE sample_ncclGetErrorString 66 3).
Proof.
  cbv zeta. split; [split; [reflexivity | discriminate]|].
  repeat split; vm_compute; reflexivity.
Qed.

Lemma ok_checks_leave_handle_healthy_sample :
  Forall (fun t => async_result t = ncclSuccess) [all_well; all_well; all_well]
  /\ aborts (world_of (run sample_FILE sample_ncclGetErrorString
                         (Alive sample_comm sample_world)
                         (map Ev_check [all_well; all_well; all_well])))
     = 0%nat.
Proof.
  assert (H : Forall (fun t => async_result t = ncclSuccess)
                [all_well; all_well; all_well]) by (repeat constructor).
  split; [exact H|].
  exact (proj1 (ok_checks_leave_handle_healthy sample_FILE sample_ncclGetErrorString
                  [all_well; all_well; all_well] sample_comm sample_world H)).
Defined.

Lemma GetNCCLComm_returns_constructed_sample :
  let evs := [Ev_check fault_found; Ev_allreduce ncclSuccess; Ev_check all_well] in
  let p := run sample_FILE sample_ncclGetErrorString
             (Alive {| nccl_comm_ := 4096 |} sample_world) evs in
  p = Alive sample_comm (world_of p)
  /\ fault_state (world_of p) = Aborted
  /\ GetNCCLComm sample_comm (world_of p) = Ret 4096 (world_of p).
Proof.
  cbv zeta.
  assert (H : run sample_FILE sample_ncclGetErrorString
                (Alive {| nccl_comm_ := 4096 |} sample_world)
                [Ev_check fault_found; Ev_allreduce ncclSuccess; Ev_check all_well]
              = Alive sample_comm
                  (world_of (run sample_FILE sample_ncclGetErrorString
                     (Alive {| nccl_comm_ := 4096 |} sample_world)
                     [Ev_check fault_found; Ev_allreduce ncclSuccess; Ev_check all_well])))
    by reflexivity.
  split; [exact H|]. split; [reflexivity|].
  exact (proj1 (GetNCCLComm_returns_constructed sample_FILE sample_ncclGetErrorString
                  4096 sample_world _ _ _ H)).
Defined.

Lemma check_macros_fail_fast_sample :
  extern Call_MPI_Init 5 armed_world = Ret 5 (record Call_MPI_Init armed_world)
  /\ 5 <> MPI_SUCCESS
  /\ MPICHECK sample_FILE 128 (extern Call_MPI_Init 5) armed_world
     = Exit 1 (World ["Failed: MPI error test.cc:128 '5'" +:+ nl]
                 [Call_signal SIGTERM; Call_MPI_Init] SIG_handler).
Proof.
  assert (H : 5 <> MPI_SUCCESS) by discriminate.
  split; [reflexivity|]. split; [exact H|].
  exact (proj1 (proj1 (check_macros_fail_fast sample_FILE sample_ncclGetErrorString
                         sample_cudaGetErrorString 128 5 (extern Call_MPI_Init 5)
                         armed_world (record Call_MPI_Init armed_world) eq_refl) H)).
Defined.

Lemma SIGTERM_exits_with_status_0_sample :
  sigterm sample_world = SIG_handler
  /\ step sample_FILE sample_ncclGetErrorString (Alive sample_comm sample_world) Ev_sigterm
     = Exited 0 (World ["receive signal 15. exit."] [Call_thread_start] SIG_handler).
Proof.
  split; [reflexivity|].
  exact (proj1 (proj2 (SIGTERM_exits_with_status_0 sample_FILE sample_ncclGetErrorString
                         sample_cudaGetErrorString sample_world (Alive sample_comm)
                         eq_refl)) sample_comm).
Defined.

Lemma check_alone_can_end_process_sample :
  check_call_fails query_broken
  /\ check_call_fails abort_broken
  /\ (exists w', step sample_FILE sample_ncclGetErrorString
                   (Alive sample_comm sample_world) (Ev_check query_broken)
                 = Exited 1 w')
  /\ (exists w', step sample_FILE sample_ncclGetErrorString
                   (Alive sample_comm sample_world) (Ev_check abort_broken)
                 = Exited 1 w').
Proof.
  assert (Hq : check_call_fails query_broken) by (left; discriminate).
  assert (Ha : check_call_fails abort_broken).
  { right. split; [split; [reflexivity | discriminate] | discriminate]. }
  split; [exact Hq|]. split; [exact Ha|]. split.
  - destruct (check_alone_can_end_process sample_FILE sample_ncclGetErrorString
                query_broken sample_comm sample_world Hq)
      as (line & r & w1 & _ & E & _).
    eexists. exact E.
  - destruct (check_alone_can_end_process sample_FILE sample_ncclGetErrorString
                abort_broken sample_comm sample_world Ha)
      as (line & r & w1 & _ & E & _).
    eexists. exact E.
Defined.

Lemma getHostName_cuts_at_first_dot_sample :
  let hostname := uninitialized (hostname_junk sample_boot) 1024 in
  let filled := sample_gethostname hostname 1024 in
  filled !! 5%nat = Some DOT
  /\ getHostName sample_gethostname hostname 1024 sample_world
     = Ret (<[5%nat:=NUL]> filled) (record (Call_gethostname 1024) sample_world)
  /\ upto NUL (<[5%nat:=NUL]> filled) = node1.
Proof.
  cbv zeta. split; [reflexivity|]. split; [|vm_compute; reflexivity].
  refine (proj1 (proj1 (getHostName_cuts_at_first_dot sample_gethostname
                   (uninitialized (hostname_junk sample_boot) 1024) 1024 sample_world _)
                   5%nat _ _ _)).
  - apply Nat.leb_le. vm_compute. reflexivity.
  - apply Nat.ltb_lt. vm_compute. reflexivity.
  - reflexivity.
  - intros j Hj. destruct j as [|[|[|[|[|j]]]]]; [discriminate .. | lia].
Defined.

Lemma localRank_counts_same_host_ranks_before_sample :
  let filled := sample_gethostname (uninitialized (hostname_junk sample_boot) 1024) 1024 in
  upto NUL filled = node1_cluster
  /\ [node1; node1_cluster] !! 1%nat = Some node1_cluster
  /\ host_hash node1 = host_hash node1_cluster
  /\ List.filter is_cudaSetDevice
       (calls (state_of (main_boot sample_FILE sample_ncclGetErrorString
                           sample_cudaGetErrorString sample_boot fresh_world)))
     = [Call_cudaSetDevice 1].
Proof.
  cbv zeta. split; [vm_compute; reflexivity|]. split; [reflexivity|].
  split; [reflexivity|].
  refine (localRank_counts_same_host_ranks_before sample_FILE sample_ncclGetErrorString
            sample_cudaGetErrorString sample_boot fresh_world
            [node1; node1_cluster] node1_cluster
            eq_refl eq_refl eq_refl (fun _ => eq_refl) eq_refl eq_refl _ _ _ _ _ _).
  - split; [discriminate | reflexivity].
  - vm_compute. reflexivity.
  - apply in_or_app. right. now left.
  - vm_compute. reflexivity.
  - reflexivity.
  - intros a h Ha Hh. unfold sample_boot, MPI_Allgather, sample_MPI_Allgather, snd.
    change (Z.to_nat (myRank_out sample_boot)) with 1%nat in Ha. rewrite Ha.
    change (host_hash node1_cluster) with (Some node1_hash) in Hh.
    injection Hh as <-. reflexivity.
Defined.

(** ** The further properties on the sample process *)

Lemma getHostHash_range_sample :
  In NUL (node1 ++ [NUL])
  /\ exists h, getHostHash (node1 ++ [NUL]) = Some h /\ 0 <= h < 2 ^ 64.
Proof.
  assert (H : In NUL (node1 ++ [NUL])) by (apply in_or_app; right; now left).
  split; [exact H|]. exact (proj1 (getHostHash_range (node1 ++ [NUL]) H)).
Defined.

Lemma getHostHash_unterminated_sample :
  ~ In NUL node1 /\ getHostHash node1 = None.
Proof.
  assert (H : ~ In NUL node1).
  { intros H. repeat (destruct H as [H|H]; [discriminate H|]). exact H. }
  split; [exact H|]. exact (getHostHash_unterminated node1 H).
Defined.

Lemma getHostHash_is_djb2a_sample :
  getHostHash (node1 ++ NUL :: node1_cluster) = Some (djb2a node1)
  /\ djb2a node1 = node1_hash.
Proof.
  split; [|reflexivity].
  refine (getHostHash_is_djb2a (node1 ++ NUL :: node1_cluster) _).
  apply in_or_app. right. now left.
Defined.

Lemma getHostName_leaves_short_name_sample :
  exists buf,
    getHostName sample_gethostname (uninitialized (hostname_junk sample_boot) 1024)
      1024 sample_world
    = Ret buf (record (Call_gethostname 1024) sample_world)
    /\ length buf
       = length (sample_gethostname (uninitialized (hostname_junk sample_boot) 1024) 1024)
    /\ In NUL buf
    /\ upto NUL buf
       = upto DOT (upto NUL (sample_gethostname
                               (uninitialized (hostname_junk sample_boot) 1024) 1024))
    /\ ~ In DOT (upto NUL buf).
Proof.
  refine (getHostName_leaves_short_name sample_gethostname
            (uninitialized (hostname_junk sample_boot) 1024) 1024 sample_world _ _).
  - apply Nat.leb_le. vm_compute. reflexivity.
  - apply Nat.ltb_lt. vm_compute. reflexivity.
Defined.

Lemma getHostName_reads_past_short_buffer_sample :
  getHostName (fun _ _ => node1) [] 16 sample_world
  = Undefined (record (Call_gethostname 16) sample_world).
Proof.
  refine (getHostName_reads_past_short_buffer (fun _ _ => node1) [] 16 sample_world _ _).
  - apply Nat.ltb_lt. vm_compute. reflexivity.
  - intros H. repeat (destruct H as [H|H]; [discriminate H|]). exact H.
Defined.

Lemma same_short_name_same_hash_sample :
  exists buf1 buf2 h,
    getHostName sample_gethostname (uninitialized (hostname_junk sample_boot) 1024)
      1024 sample_world
    = Ret buf1 (record (Call_gethostname 1024) sample_world)
    /\ getHostName (fun hostname _ => node1 ++ NUL :: drop 6 hostname)
         (uninitialized (hostHashs_junk sample_boot) 1024) 1024 armed_world
       = Ret buf2 (record (Call_gethostname 1024) armed_world)
    /\ getHostHash buf1 = Some h
    /\ getHostHash buf2 = Some h.
Proof.
  refine (same_short_name_same_hash sample_gethostname
            (fun hostname _ => node1 ++ NUL :: drop 6 hostname)
            (uninitialized (hostname_junk sample_boot) 1024)
            (uninitialized (hostHashs_junk sample_boot) 1024)
            1024 sample_world armed_world _ _ _ _ _).
  - vm_compute. reflexivity.
  - vm_compute. reflexivity.
  - apply in_or_app. right. now left.
  - apply in_or_app. right. now left.
  - vm_compute. reflexivity.
Defined.

Lemma localRank_loop_bounds_sample :
  exists r,
    localRank_loop [7; 9; 7] 2 0 3 0 = Some r
    /\ 0 <= r <= 2
    /\ (2 = 0 -> r = 0)
    /\ ((forall p, 0 <= p < 2 -> at_index [7; 9; 7] p <> Some 7) -> r = 0).
Proof.
  refine (localRank_loop_bounds [7; 9; 7] 2 3 7 _ eq_refl).
  split; [discriminate | reflexivity].
Defined.

Lemma localRank_loop_separates_sample :
  exists r1 r2,
    localRank_loop [7; 9; 7] 0 0 3 0 = Some r1
    /\ localRank_loop [7; 9; 7] 2 0 3 0 = Some r2
    /\ r1 < r2.
Proof.
  refine (localRank_loop_separates [7; 9; 7] 0 2 3 7 _ eq_refl eq_refl eq_refl).
  split; [discriminate | reflexivity].
Defined.

Lemma aborts_count_observed_faults_sample :
  exists w',
    run sample_FILE sample_ncclGetErrorString (Alive sample_comm sample_world)
      [Ev_check fault_found; Ev_allreduce ncclSuccess; Ev_check fault_found;
       Ev_check all_well]
    = Alive sample_comm w'
    /\ aborts w' = 2%nat.
Proof.
  exact (aborts_count_observed_faults sample_FILE sample_ncclGetErrorString
           sample_comm sample_world
           [Ev_check fault_found; Ev_allreduce ncclSuccess; Ev_check fault_found;
            Ev_check all_well] eq_refl).
Defined.

Lemma run_calls_target_comm_sample :
  Forall (fun cl => targets 4096 cl = true)
    (calls (world_of
       (run sample_FILE sample_ncclGetErrorString
          (Alive {| nccl_comm_ := 4096 |} sample_world)
          [Ev_check fault_found; Ev_allreduce ncclSuccess; Ev_allreduce 2]))).
Proof.
  refine (run_calls_target_comm sample_FILE sample_ncclGetErrorString 4096 sample_world
            [Ev_check fault_found; Ev_allreduce ncclSuccess; Ev_allreduce 2] _).
  repeat constructor.
Defined.

Lemma main_boot_success_sample :
  exists localRank,
    0 <= localRank <= 1
    /\ main_boot sample_FILE sample_ncclGetErrorString sample_cudaGetErrorString
         sample_boot fresh_world
       = Ret (1, {| nccl_comm_ := 4096 |})
           (World []
              ([Call_signal SIGTERM; Call_MPI_Init; Call_MPI_Comm_rank;
                Call_MPI_Comm_size; Call_gethostname 1024; Call_MPI_Allgather]
               ++ [Call_MPI_Bcast; Call_MPI_Finalize; Call_cudaSetDevice localRank;
                   Call_cudaMalloc 134217728; Call_cudaMalloc 134217728;
                   Call_cudaStreamCreate; Call_ncclCommInitRank 2 1;
                   Call_thread_start])
              SIG_handler).
Proof.
  refine (main_boot_success sample_FILE sample_ncclGetErrorString
            sample_cudaGetErrorString sample_boot fresh_world
            eq_refl eq_refl eq_refl (fun _ => eq_refl) eq_refl eq_refl
            eq_refl eq_refl eq_refl eq_refl eq_refl _ _ _ (fun _ => eq_refl)).
  - split; [discriminate | reflexivity].
  - vm_compute. reflexivity.
  - apply in_or_app. right. now left.
Defined.

